(** * The [bash] module: a supervised bash child process

    Shallow embedding of [bash/__init__.py]: the [Bash] class (constructor,
    [is_complete], [is_timeout], [check_code], [kill], [_log]) and the
    blocking [run] helper, over a model of the [subprocess.Popen] handle
    and of the operating system the child runs on.  The methods run in a
    state and exception monad: [communicate()] may raise, and what a
    method had assigned before the exception stays assigned. *)

From Stdlib Require Import ZArith QArith List String Bool Lia Lqa.
Import ListNotations.

Local Open Scope string_scope.
Local Open Scope Z_scope.

(** ** Module constants *)

Definition _BASH : string := "/usr/bin/bash".

Inductive Status : Type := _S_RUN | _S_COMPLETE | _S_TIMEOUT | _S_KILL.

Definition _D_ARGS : list string := [].
Definition _D_E_CODES : list Z := [0].
Definition _D_MAX_TIME : Q := 60%Q.
Definition _D_CWD : string := ".".

Definition _L_MAX_TIME : Q := inject_Z (60 * 60 * 24 * 2).

(** The three sentinels of [subprocess]. *)
Definition PIPE : Z := -1.
Definition STDOUT : Z := -2.
Definition DEVNULL : Z := -3.

Definition Status_eqb (a b : Status) : bool :=
  match a, b with
  | _S_RUN, _S_RUN | _S_COMPLETE, _S_COMPLETE
  | _S_TIMEOUT, _S_TIMEOUT | _S_KILL, _S_KILL => true
  | _, _ => false
  end.

(** ** Python values given as [stdin], [stdout], [stderr]

    [None], an integer (a sentinel or a file descriptor), a [str], or any
    other object, of which only the class name matters here. *)

Inductive PyVal : Type :=
| PyNone
| PyInt (n : Z)
| PyStr (s : string)
| PyObj (cls : string).

Definition py_eqb (a b : PyVal) : bool :=
  match a, b with
  | PyNone, PyNone => true
  | PyInt x, PyInt y => x =? y
  | PyStr x, PyStr y => String.eqb x y
  | PyObj x, PyObj y => String.eqb x y
  | _, _ => false
  end.

(** [v in l] *)
Definition py_in (v : PyVal) (l : list PyVal) : bool := existsb (py_eqb v) l.

Definition py_type_name (v : PyVal) : string :=
  match v with
  | PyNone => "NoneType"
  | PyInt _ => "int"
  | PyStr _ => "str"
  | PyObj c => c
  end.

(** ** The operating system and the [Popen] handle

    [subprocess] and [time] are outside the module.  What they answer is
    fixed by an [OS] record, read through three cursors kept in the
    [World]: the n-th non-blocking wait, the n-th reading of the clock and
    the n-th call of [communicate()]. *)

Record PopenArgs : Type := mkPopenArgs {
  a_args : list string;
  a_stdin : PyVal;
  a_stdout : PyVal;
  a_stderr : PyVal;
  a_cwd : string;
  a_env : option (list (string * string))
}.

(** What a call of [communicate()] gets from the pipes it reads: the text
    of the two streams, or the message of the error raised while reading
    and decoding them. *)
Inductive Drain : Type :=
| Drained (out err : string)
| DrainError (msg : string).

Record OS : Type := mkOS {
  os_spawn : PopenArgs -> string + Z;
    (* Popen(...): the message of the exception raised, or the child's pid *)
  os_write : string -> option string;
    (* stdin.write(text); stdin.close(): the message of the exception, if any *)
  os_poll : nat -> option Z;
    (* what the n-th waitpid(WNOHANG) finds: the exit status once exited *)
  os_time : nat -> Q;
    (* the n-th reading of time.time() *)
  os_reap : Z;
    (* the status wait() collects after the kill signal *)
  os_drain : nat -> Drain
    (* what the n-th communicate() finds on the pipes it reads *)
}.

Record Popen : Type := mkPopen {
  p_pid : Z;
  p_args : PopenArgs;
  returncode : option Z;
  stdin_sent : option string;
  stdin_closed : bool;
  signalled : bool;
  _communication_started : bool;
  _fileobj2output : bool          (* whether the attribute exists *)
}.

(** Attributes of a [Bash] instance that the methods assign. *)
Inductive Attr : Type :=
| A_code | A_status | A_e_time | A_stdout | A_stderr.

Definition Attr_eqb (a b : Attr) : bool :=
  match a, b with
  | A_code, A_code | A_status, A_status | A_e_time, A_e_time
  | A_stdout, A_stdout | A_stderr, A_stderr => true
  | _, _ => false
  end.

(** One record of the log file, as [_log] writes it. *)
Record LogRecord : Type := mkLogRecord {
  l_cmd : string;
  l_args : list string;
  l_code : option Z;
  l_stdout : option string;
  l_stderr : option string;
  l_s_time : Q;
  l_e_time : option Q
}.

Record World : Type := mkWorld {
  polls : nat;                  (* non-blocking waits made so far *)
  reads : nat;                  (* clock readings made so far *)
  log_file : list LogRecord;    (* contents of _LOG_FILE_PATH, oldest first *)
  drains : nat                  (* calls of communicate() made so far *)
}.

(** ** The [BashError] exception and the [Bash] instance *)

Record BashError : Type := mkBashError {
  _args : list string;
  _cmd : string;
  _msg : string
}.

Record Bash : Type := mkBash {
  args : list string;
  cmd : string;
  _process : Popen;
  stdin : string;
  stdout : option string;       (* a str, or None *)
  stderr : option string;
  code : option Z;
  e_codes : list Z;
  pid : Z;
  s_time : Q;
  e_time : option Q;
  m_time : Q;
  status : Status
}.

Definition with_process (p : Popen) (b : Bash) : Bash :=
  mkBash (args b) (cmd b) p (stdin b) (stdout b) (stderr b) (code b)
         (e_codes b) (pid b) (s_time b) (e_time b) (m_time b) (status b).
Definition with_stdout (v : option string) (b : Bash) : Bash :=
  mkBash (args b) (cmd b) (_process b) (stdin b) v (stderr b) (code b)
         (e_codes b) (pid b) (s_time b) (e_time b) (m_time b) (status b).
Definition with_stderr (v : option string) (b : Bash) : Bash :=
  mkBash (args b) (cmd b) (_process b) (stdin b) (stdout b) v (code b)
         (e_codes b) (pid b) (s_time b) (e_time b) (m_time b) (status b).
Definition with_code (v : option Z) (b : Bash) : Bash :=
  mkBash (args b) (cmd b) (_process b) (stdin b) (stdout b) (stderr b) v
         (e_codes b) (pid b) (s_time b) (e_time b) (m_time b) (status b).
Definition with_e_time (v : option Q) (b : Bash) : Bash :=
  mkBash (args b) (cmd b) (_process b) (stdin b) (stdout b) (stderr b) (code b)
         (e_codes b) (pid b) (s_time b) v (m_time b) (status b).
Definition with_status (v : Status) (b : Bash) : Bash :=
  mkBash (args b) (cmd b) (_process b) (stdin b) (stdout b) (stderr b) (code b)
         (e_codes b) (pid b) (s_time b) (e_time b) (m_time b) v.

(** ** A state and exception monad over the instance and the world *)

(** The exceptions that the calls into [subprocess] raise inside the
    methods. *)
Inductive Exc : Type :=
| ValueError (msg : string)
| AttributeError (msg : string)
| UnicodeDecodeError (msg : string).

Inductive Outcome (A : Type) : Type :=
| Returns (a : A)
| Raises (e : Exc).

Arguments Returns {A} a.
Arguments Raises {A} e.

(** Besides the instance and the world, the state keeps the attribute
    assignments the methods have made to the instance, in program order,
    oldest first. *)
Record St : Type := mkSt {
  self : Bash;
  world : World;
  assigned : list Attr
}.

(** A method returns or raises, and leaves a state either way: what it
    assigned before raising stays assigned. *)
Definition M (A : Type) : Type := St -> Outcome A * St.

Definition ret {A} (a : A) : M A := fun st => (Returns a, st).
Definition bind {A B} (m : M A) (k : A -> M B) : M B :=
  fun st =>
    match m st with
    | (Returns a, st') => k a st'
    | (Raises e, st') => (Raises e, st')
    end.

Declare Scope bash_scope.
Delimit Scope bash_scope with bash.
Notation "x <- m ;; k" := (bind m (fun x => k))
  (at level 61, m at next level, right associativity) : bash_scope.
Notation "m ;; k" := (bind m (fun _ => k))
  (at level 61, right associativity) : bash_scope.
Local Open Scope bash_scope.

Definition getattr {A} (f : Bash -> A) : M A :=
  fun st => (Returns (f (self st)), st).

(** [self.a = v] *)
Definition setattr (a : Attr) (upd : Bash -> Bash) : M unit :=
  fun st => (Returns tt, mkSt (upd (self st)) (world st) (assigned st ++ [a])).

(** [time.time()] *)
Definition time_time (os : OS) : M Q :=
  fun st =>
    let w := world st in
    (Returns (os_time os (reads w)),
     mkSt (self st) (mkWorld (polls w) (S (reads w)) (log_file w) (drains w))
          (assigned st)).

Definition on_process (f : Popen -> Popen) : M unit :=
  fun st => (Returns tt,
             mkSt (with_process (f (_process (self st))) (self st))
                  (world st) (assigned st)).

(** [Popen.poll()]: the stored [returncode] if there is one, else a
    non-blocking wait whose answer is stored. *)
Definition Popen_poll (os : OS) : M (option Z) :=
  fun st =>
    let p := _process (self st) in
    match returncode p with
    | Some c => (Returns (Some c), st)
    | None =>
        let w := world st in
        let r := os_poll os (polls w) in
        (Returns r,
         mkSt (with_process
                 (mkPopen (p_pid p) (p_args p) r (stdin_sent p)
                          (stdin_closed p) (signalled p)
                          (_communication_started p) (_fileobj2output p))
                 (self st))
              (mkWorld (S (polls w)) (reads w) (log_file w) (drains w))
              (assigned st))
    end.

(** [Popen.kill()], that is [send_signal(SIGKILL)]: polls first, and sends
    the signal only when the child is not known to have died. *)
Definition Popen_kill (os : OS) : M unit :=
  Popen_poll os ;;
  on_process (fun p =>
    match returncode p with
    | Some _ => p
    | None => mkPopen (p_pid p) (p_args p) (returncode p) (stdin_sent p)
                      (stdin_closed p) true
                      (_communication_started p) (_fileobj2output p)
    end).

(** [Popen.wait()]: blocks until the child is reaped. *)
Definition reaped (os : OS) (p : Popen) : Popen :=
  match returncode p with
  | Some _ => p
  | None => mkPopen (p_pid p) (p_args p) (Some (os_reap os)) (stdin_sent p)
                    (stdin_closed p) (signalled p)
                    (_communication_started p) (_fileobj2output p)
  end.

Definition Popen_wait (os : OS) : M unit := on_process (reaped os).

(** A stream of the handle is a pipe only when it was opened with [PIPE]. *)
Definition piped (v : PyVal) : bool :=
  match v with PyInt n => n =? PIPE | _ => false end.

(** [[self.stdin, self.stdout, self.stderr].count(None) >= 2] *)
Definition one_pipe_at_most (a : PopenArgs) : bool :=
  (2 <=? (if piped (a_stdin a) then 0 else 1)
         + (if piped (a_stdout a) then 0 else 1)
         + (if piped (a_stderr a) then 0 else 1))%nat.

(** Reading the pipes that are there: a stream that is not a pipe gives
    [None]. *)
Definition read_pipes (os : OS) (a : PopenArgs) (k : nat)
  : Outcome (option string * option string) :=
  match os_drain os k with
  | Drained out err =>
      Returns (if piped (a_stdout a) then Some out else None,
               if piped (a_stderr a) then Some err else None)
  | DrainError msg => Raises (UnicodeDecodeError msg)
  end.

(** What [communicate()] returns or raises, on a handle opened with [a]
    whose stdin pipe is [closed], whose [_communication_started] is
    [started] and which has ([mapped]) or has not its [_fileobj2output].

    With one pipe at most and no communication started, the pipe is used
    directly: stdin is closed, or the one output stream is read.
    Otherwise [_communicate] flushes the stdin pipe, which raises
    [ValueError] on a closed file, creates [_fileobj2output] unless the
    communication had started, looks the output streams up in it, and
    reads them. *)
Definition drain_result (os : OS) (a : PopenArgs) (closed started mapped : bool)
           (k : nat) : Outcome (option string * option string) :=
  if negb started && one_pipe_at_most a then
    if piped (a_stdin a) then Returns (None, None)
    else if piped (a_stdout a) || piped (a_stderr a) then read_pipes os a k
    else Returns (None, None)
  else
    if piped (a_stdin a) && negb started && closed
    then Raises (ValueError "I/O operation on closed file.")
    else if piped (a_stdout a) || piped (a_stderr a) then
      if started && negb mapped
      then Raises (AttributeError
                     "'Popen' object has no attribute '_fileobj2output'")
      else read_pipes os a k
    else Returns (None, None).

(** The flags of the handle after the call. *)
Definition drain_closed (a : PopenArgs) (closed started : bool) : bool :=
  closed || (piped (a_stdin a) && negb started).

Definition drain_started (a : PopenArgs) (started : bool) : bool :=
  started || negb (one_pipe_at_most a).

Definition drain_mapped (a : PopenArgs) (closed started mapped : bool) : bool :=
  if negb started && one_pipe_at_most a then mapped
  else if piped (a_stdin a) && negb started && closed then mapped
  else mapped || negb started.

(** Whether the call got as far as its [wait()]. *)
Definition drain_waits (os : OS) (a : PopenArgs) (closed started mapped : bool)
           (k : nat) : bool :=
  match drain_result os a closed started mapped k with
  | Returns _ => true
  | Raises (UnicodeDecodeError _) => negb (negb started && one_pipe_at_most a)
  | Raises _ => false
  end.

(** [Popen.communicate()] *)
Definition Popen_communicate (os : OS) : M (option string * option string) :=
  fun st =>
    let p := _process (self st) in
    let w := world st in
    let a := p_args p in
    let c := stdin_closed p in
    let s := _communication_started p in
    let m := _fileobj2output p in
    let k := drains w in
    (drain_result os a c s m k,
     mkSt (with_process
             (mkPopen (p_pid p) a
                      (match returncode p with
                       | Some r => Some r
                       | None => if drain_waits os a c s m k
                                 then Some (os_reap os) else None
                       end)
                      (stdin_sent p) (drain_closed a c s) (signalled p)
                      (drain_started a s) (drain_mapped a c s m))
             (self st))
          (mkWorld (polls w) (reads w) (log_file w) (S k))
          (assigned st)).

(** [Popen(...)]: a fresh handle on the spawned child, or the message of
    the exception.  The call always passes [bufsize=-1], [close_fds=True],
    [universal_newlines=True] and a [preexec_fn] that calls [os.setpgrp()]. *)
Definition Popen_new (os : OS) (a : PopenArgs) : string + Popen :=
  match os_spawn os a with
  | inl e => inl e
  | inr n => inr (mkPopen n a None None false false false false)
  end.

(** [process.stdin.write(v); process.stdin.close()] on the text-mode pipe:
    a value that is not a [str] raises [TypeError]. *)
Definition stdin_write_close (os : OS) (v : PyVal) (p : Popen) : string + Popen :=
  match v with
  | PyStr s =>
      match os_write os s with
      | Some e => inl e
      | None => inr (mkPopen (p_pid p) (p_args p) (returncode p) (Some s)
                             true (signalled p)
                             (_communication_started p) (_fileobj2output p))
      end
  | _ => inl ("write() argument must be str, not " ++ py_type_name v)
  end.

(** ** class [Bash] *)

(** The keyword arguments of [Bash(...)] and [run(...)]. *)
Record Kwargs : Type := mkKwargs {
  k_cmd : string;
  k_args : list string;
  k_stdin : PyVal;
  k_stdout : PyVal;
  k_stderr : PyVal;
  k_cwd : string;
  k_env : option (list (string * string));
  k_m_time : option Q;
  k_e_codes : list Z
}.

Definition defaults (c : string) : Kwargs :=
  mkKwargs c _D_ARGS PyNone PyNone PyNone _D_CWD None (Some _D_MAX_TIME) _D_E_CODES.

(** [stdin not in [None, PIPE, DEVNULL]] *)
Definition is_payload (v : PyVal) : bool :=
  negb (py_in v [PyNone; PyInt PIPE; PyInt DEVNULL]).

(** The [stdin] argument handed to [Popen] (the local [i]). *)
Definition stdin_arg (v : PyVal) : PyVal :=
  if is_payload v then PyInt PIPE else v.

(** [Bash.__init__]: [inl] is the raised [BashError]. *)
Definition Bash_init (os : OS) (k : Kwargs) (w : World) : (BashError + Bash) * World :=
  let self_args := ([_BASH] ++ k_args k ++ ["-c"])%list in
  let self_cmd := k_cmd k in
  let i := stdin_arg (k_stdin k) in
  let attempt :=
    match Popen_new os (mkPopenArgs (self_args ++ [self_cmd])%list i (k_stdout k)
                                    (k_stderr k) (k_cwd k) (k_env k)) with
    | inl e => inl e
    | inr process =>
        if is_payload (k_stdin k)
        then stdin_write_close os (k_stdin k) process
        else inr process
    end in
  match attempt with
  | inl e => (inl (mkBashError self_args self_cmd e), w)
  | inr process =>
      (inr (mkBash self_args self_cmd process "" (Some "") (Some "") None
                   (k_e_codes k) (p_pid process) (os_time os (reads w)) None
                   (match k_m_time k with Some m => m | None => _L_MAX_TIME end)
                   _S_RUN),
       mkWorld (polls w) (S (reads w)) (log_file w) (drains w))
  end.

(** [Bash._log]: one record appended to the log file. *)
Definition _log : M unit :=
  fun st =>
    let b := self st in
    let w := world st in
    (Returns tt,
     mkSt b (mkWorld (polls w) (reads w)
               (log_file w ++ [mkLogRecord (cmd b) (args b) (code b) (stdout b)
                                           (stderr b) (s_time b) (e_time b)])
               (drains w))
          (assigned st)).

Definition running (s : Status) : bool := Status_eqb s _S_RUN.

(** [a > b] on time stamps *)
Definition Qgt_bool (a b : Q) : bool := negb (Qle_bool a b).

(** [Bash.is_complete] *)
Definition is_complete (os : OS) : M bool :=
  s <- getattr status ;;
  if negb (running s) then ret true else
  c <- Popen_poll os ;;
  (match c with
   | Some n =>
       setattr A_code (with_code (Some n)) ;;
       setattr A_status (with_status _S_COMPLETE) ;;
       (t <- time_time os ;; setattr A_e_time (with_e_time (Some t))) ;;
       oe <- Popen_communicate os ;;
       setattr A_stdout (with_stdout (fst oe)) ;;
       setattr A_stderr (with_stderr (snd oe))
   | None =>
       now <- time_time os ;;
       s0 <- getattr s_time ;;
       m <- getattr m_time ;;
       if Qgt_bool (now - s0) m then
         Popen_kill os ;;
         Popen_wait os ;;
         setattr A_status (with_status _S_TIMEOUT) ;;
         (t <- time_time os ;; setattr A_e_time (with_e_time (Some t))) ;;
         oe <- Popen_communicate os ;;
         setattr A_stdout (with_stdout (fst oe)) ;;
         setattr A_stderr (with_stderr (snd oe))
       else ret tt
   end) ;;
  s <- getattr status ;;
  (if negb (running s) then _log else ret tt) ;;
  s <- getattr status ;;
  ret (negb (running s)).

(** [Bash.is_timeout] *)
Definition is_timeout (os : OS) : M bool :=
  c <- is_complete os ;;
  if c then (s <- getattr status ;; ret (Status_eqb s _S_TIMEOUT)) else ret false.

(** [self.code in self.e_codes]: [e_codes] is a list of [int], so [None]
    is never a member. *)
Definition code_in (c : option Z) (l : list Z) : bool :=
  match c with
  | Some n => existsb (Z.eqb n) l
  | None => false
  end.

(** [Bash.check_code]: [None], or [Some] of a [bool]. *)
Definition check_code (os : OS) : M (option bool) :=
  c <- is_complete os ;;
  if negb c then ret None else
  x <- getattr code ;;
  l <- getattr e_codes ;;
  ret (Some (code_in x l)).

(** [Bash.kill] *)
Definition kill (os : OS) : M unit :=
  c <- is_complete os ;;
  if negb c then
    Popen_kill os ;;
    Popen_wait os ;;
    (t <- time_time os ;; setattr A_e_time (with_e_time (Some t))) ;;
    oe <- Popen_communicate os ;;
    setattr A_stdout (with_stdout (fst oe)) ;;
    setattr A_stderr (with_stderr (snd oe)) ;;
    setattr A_status (with_status _S_KILL)
  else ret tt.

(** ** [run]

    [while process.is_complete() is False: pass], with the number of
    iterations bounded by [fuel]; the result is [false] when the bound is
    reached with the process still running. *)
Fixpoint poll_until_complete (os : OS) (fuel : nat) : M bool :=
  match fuel with
  | O => ret false
  | S n =>
      c <- is_complete os ;;
      if negb c then poll_until_complete os n else ret true
  end.

(** What [run] raises: the [BashError] of the constructor, or an exception
    that came out of a check. *)
Inductive Raised : Type :=
| Raised_BashError (e : BashError)
| Raised_Exc (e : Exc).

(** [run]: [None] when [fuel] iterations were not enough; otherwise what
    was raised, or the returned instance. *)
Definition run (os : OS) (fuel : nat) (k : Kwargs) (w : World)
  : option ((Raised + Bash) * World) :=
  match Bash_init os k w with
  | (inl e, w') => Some (inl (Raised_BashError e), w')
  | (inr process, w') =>
      match poll_until_complete os fuel (mkSt process w' []) with
      | (Returns true, st) => Some (inr (self st), world st)
      | (Returns false, _) => None
      | (Raises e, st) => Some (inl (Raised_Exc e), world st)
      end
  end.

(** ** Notions used in the statements *)

(** A status other than running. *)
Definition terminal (s : Status) : Prop := s <> _S_RUN.

(** What the next [poll()] of the handle answers. *)
Definition observed (os : OS) (st : St) : option Z :=
  match returncode (_process (self st)) with
  | Some c => Some c
  | None => os_poll os (polls (world st))
  end.

(** Whether the next reading of the clock is past the deadline. *)
Definition overdue (os : OS) (st : St) : bool :=
  Qgt_bool (os_time os (reads (world st)) - s_time (self st)) (m_time (self st)).

(** What the [communicate()] of the next transition returns or raises. *)
Definition drain (os : OS) (st : St) : Outcome (option string * option string) :=
  drain_result os (p_args (_process (self st)))
               (stdin_closed (_process (self st)))
               (_communication_started (_process (self st)))
               (_fileobj2output (_process (self st)))
               (drains (world st)).

(** What the poll made by [Popen.kill()] finds, after a first poll that
    found the child running. *)
Definition found_dead (os : OS) (st : St) : option Z :=
  os_poll os (S (polls (world st))).

(** The record [_log] writes for an instance. *)
Definition log_record (b : Bash) : LogRecord :=
  mkLogRecord (cmd b) (args b) (code b) (stdout b) (stderr b) (s_time b) (e_time b).

(** Within [[0, _L_MAX_TIME]]. *)
Definition in_limits (m : Q) : Prop := (0 <= m /\ m <= _L_MAX_TIME)%Q.

(** The [m_time] the constructor stores. *)
Definition deadline (k : Kwargs) : Q :=
  match k_m_time k with Some m => m | None => _L_MAX_TIME end.

(** [self.args] and the arguments of the [Popen(...)] call, as the
    constructor computes them from its own arguments. *)
Definition self_args (k : Kwargs) : list string :=
  ([_BASH] ++ k_args k ++ ["-c"])%list.

Definition popen_args (k : Kwargs) : PopenArgs :=
  mkPopenArgs (self_args k ++ [k_cmd k])%list (stdin_arg (k_stdin k))
              (k_stdout k) (k_stderr k) (k_cwd k) (k_env k).

(** The handle [Popen(...)] returns for a child of pid [n]. *)
Definition fresh_handle (n : Z) (a : PopenArgs) : Popen :=
  mkPopen n a None None false false false false.

(** The message of the failure of the spawn or of the write of the stdin
    payload, if one of them fails. *)
Definition spawn_failure (os : OS) (k : Kwargs) : option string :=
  match os_spawn os (popen_args k) with
  | inl e => Some e
  | inr n =>
      if is_payload (k_stdin k) then
        match stdin_write_close os (k_stdin k) (fresh_handle n (popen_args k)) with
        | inl e => Some e
        | inr _ => None
        end
      else None
  end.






(** How many times an attribute was assigned. *)
Definition times (a : Attr) (l : list Attr) : nat :=
  List.length (filter (Attr_eqb a) l).

(** The methods a caller may invoke on an instance. *)
Inductive Method : Type := m_is_complete | m_is_timeout | m_check_code | m_kill.

Definition call (os : OS) (m : Method) (st : St) : St :=
  match m with
  | m_is_complete => snd (is_complete os st)
  | m_is_timeout => snd (is_timeout os st)
  | m_check_code => snd (check_code os st)
  | m_kill => snd (kill os st)
  end.

(** The states an instance goes through: built by the constructor, then
    any sequence of method calls; between the calls the world may move on
    (other readings of the clock, other instances writing to the log). *)
Inductive reachable (os : OS) : St -> Prop :=
| reach_init (k : Kwargs) (w w' : World) (b : Bash) :
    Bash_init os k w = (inr b, w') -> reachable os (mkSt b w' [])
| reach_call (m : Method) (st : St) :
    reachable os st -> reachable os (call os m st)
| reach_world (st : St) (w : World) :
    reachable os st -> reachable os (mkSt (self st) w (assigned st)).

(** [n] successive calls of [is_complete]: their outcomes and the state
    they leave. *)
Fixpoint checks (os : OS) (n : nat) (st : St) : list (Outcome bool) * St :=
  match n with
  | O => ([], st)
  | S n' =>
      let (c, st') := is_complete os st in
      let (cs, st'') := checks os n' st' in
      (c :: cs, st'')
  end.



(** What [communicate()] of the instance built from [k] returns or raises
    at its first call: the stdin pipe is closed when a payload was
    written. *)
Definition first_drain (os : OS) (k : Kwargs) (w : World)
  : Outcome (option string * option string) :=
  drain_result os (popen_args k) (is_payload (k_stdin k)) false false (drains w).

(** The value a captured stream holds once assigned: [None] when the
    stream was not opened with [PIPE], else the text of that stream at
    some call of [communicate()]. *)
Definition stream_value (os : OS) (pick : string -> string -> string)
           (spec : PyVal) (v : option string) : Prop :=
  if piped spec
  then exists k out err, os_drain os k = Drained out err /\ v = Some (pick out err)
  else v = None.

(** The invariant on the two captured streams: not assigned and empty, or,
    on a terminal instance, assigned once with what was read. *)
Definition capture_inv (os : OS) (st : St) : Prop :=
  (times A_stdout (assigned st) = O /\ times A_stderr (assigned st) = O
   /\ stdout (self st) = Some "" /\ stderr (self st) = Some "")
  \/ (terminal (status (self st))
      /\ times A_stdout (assigned st) = 1%nat
      /\ times A_stderr (assigned st) = 1%nat
      /\ stream_value os (fun out _ => out)
                      (a_stdout (p_args (_process (self st)))) (stdout (self st))
      /\ stream_value os (fun _ err => err)
                      (a_stderr (p_args (_process (self st)))) (stderr (self st))).

(** ** Sample environments and instances *)

Definition world0 : World := mkWorld 0 0 [] 0.

(** A child that exits with status [n] before the first check. *)
Definition os_exits (n : Z) : OS :=
  mkOS (fun _ => inr 4242) (fun _ => None) (fun _ => Some n)
       (fun i => inject_Z (Z.of_nat i)) (-9) (fun _ => Drained "out" "err").

(** A child that never exits by itself; the clock advances one second per
    reading. *)
Definition os_sleeps : OS :=
  mkOS (fun _ => inr 4242) (fun _ => None) (fun _ => None)
       (fun i => inject_Z (Z.of_nat i)) (-9) (fun _ => Drained "out" "err").

(** No bash to spawn. *)
Definition os_nobash : OS :=
  mkOS (fun _ => inl "[Errno 2] No such file or directory: '/usr/bin/bash'")
       (fun _ => None) (fun _ => None)
       (fun i => inject_Z (Z.of_nat i)) (-9) (fun _ => Drained "" "").

Definition start (os : OS) (k : Kwargs) : option St :=
  match Bash_init os k world0 with
  | (inr b, w) => Some (mkSt b w [])
  | (inl _, _) => None
  end.

Definition piped_sleep : Kwargs :=
  mkKwargs "sleep 100" [] PyNone (PyInt PIPE) (PyInt PIPE) "." None (Some 60%Q) [0].

Definition with_m_time (m : option Q) (k : Kwargs) : Kwargs :=
  mkKwargs (k_cmd k) (k_args k) (k_stdin k) (k_stdout k) (k_stderr k)
           (k_cwd k) (k_env k) m (k_e_codes k).

Definition with_stdin (v : PyVal) (k : Kwargs) : Kwargs :=
  mkKwargs (k_cmd k) (k_args k) v (k_stdout k) (k_stderr k)
           (k_cwd k) (k_env k) (k_m_time k) (k_e_codes k).

Definition with_e_codes (l : list Z) (k : Kwargs) : Kwargs :=
  mkKwargs (k_cmd k) (k_args k) (k_stdin k) (k_stdout k) (k_stderr k)
           (k_cwd k) (k_env k) (k_m_time k) l.

(** The instance [Bash("sleep 100", stdin=i, stdout=PIPE, stderr=PIPE,
    m_time=m, e_codes=l)] right after its construction in [world0]; [sent]
    is the payload written to the stdin pipe, if any. *)
Definition instance (i : PyVal) (sent : option string) (l : list Z) (m : Q) : St :=
  mkSt (mkBash ["/usr/bin/bash"; "-c"] "sleep 100"
          (mkPopen 4242 (mkPopenArgs ["/usr/bin/bash"; "-c"; "sleep 100"] i
                                     (PyInt PIPE) (PyInt PIPE) "." None)
                   None sent (match sent with Some _ => true | None => false end)
                   false false false)
          "" (Some "") (Some "") None l 4242 0%Q None m _S_RUN)
       (mkWorld 0 1 [] 0) [].

(** The instance [Bash("sleep 100", stdout=PIPE, stderr=PIPE, m_time=m)]
    right after its construction in [world0]. *)
Definition sleeping (m : Q) : St := instance PyNone None [0] m.

(** The same with [stdin="hello"]: the payload is written and the stdin
    pipe closed. *)
Definition fed (m : Q) : St := instance (PyInt PIPE) (Some "hello") [0] m.

Definition killed_sleep : St := call os_sleeps m_kill (sleeping 60%Q).

(** ** Notions for the life cycle of an instance *)

(** The attributes, and the parts of the handle, that no method assigns. *)
Definition fixed_part (b : Bash)
  : list string * string * string * list Z * Z * Q * Q * Z * PopenArgs :=
  (args b, cmd b, stdin b, e_codes b, pid b, s_time b, m_time b,
   p_pid (_process b), p_args (_process b)).

(** What the handle and the instance hold in each status, and how many
    times the methods have assigned the status, the exit code and the end
    time.  A running instance has its end time set, and its child reaped,
    only after a [kill()] that raised. *)
Definition lifecycle_inv (os : OS) (st : St) : Prop :=
  (signalled (_process (self st)) = true ->
   returncode (_process (self st)) = Some (os_reap os))
  /\ match status (self st) with
     | _S_RUN =>
         code (self st) = None
         /\ times A_status (assigned st) = O
         /\ times A_code (assigned st) = O
         /\ ((returncode (_process (self st)) = None
              /\ signalled (_process (self st)) = false
              /\ e_time (self st) = None
              /\ times A_e_time (assigned st) = O)
             \/ (returncode (_process (self st)) <> None
                 /\ e_time (self st) <> None
                 /\ times A_e_time (assigned st) = 1%nat))
     | _S_COMPLETE =>
         (exists n, returncode (_process (self st)) = Some n
                    /\ code (self st) = Some n)
         /\ times A_status (assigned st) = 1%nat
         /\ times A_code (assigned st) = 1%nat
         /\ e_time (self st) <> None
         /\ (times A_e_time (assigned st) = 1%nat
             \/ times A_e_time (assigned st) = 2%nat)
     | _ =>
         returncode (_process (self st)) <> None
         /\ code (self st) = None
         /\ times A_status (assigned st) = 1%nat
         /\ times A_code (assigned st) = O
         /\ e_time (self st) <> None
         /\ times A_e_time (assigned st) = 1%nat
     end.


(** The time elapsed at the [i]-th check of the loop of [run]. *)
Definition elapsed (os : OS) (w : World) (i : nat) : Q :=
  os_time os (S (reads w) + i) - os_time os (reads w).

(** An instance completed with exit status 3, and one timed out. *)
Definition completed_sleep : St := call (os_exits 3) m_is_complete (sleeping 60%Q).

Definition timed_out_sleep : St := call os_sleeps m_is_complete (sleeping 0%Q).

(** A child that exits with status [c] at the [n]-th non-blocking wait. *)
Definition os_exits_at (n : nat) (c : Z) : OS :=
  mkOS (fun _ => inr 4242) (fun _ => None)
       (fun i => if (i <? n)%nat then None else Some c)
       (fun i => inject_Z (Z.of_nat i)) (-9) (fun _ => Drained "out" "err").

(** ** Tactics *)

(** Reduces the record projections and the notions of the statements, in
    the goal and in the hypotheses. *)
Ltac eval_proj :=
  cbv beta iota delta
    [fst snd self world assigned args cmd _process stdin stdout stderr code
     e_codes pid s_time e_time m_time status p_pid p_args returncode
     stdin_sent stdin_closed signalled _communication_started
     _fileobj2output polls reads log_file drains
     observed overdue drain found_dead log_record terminal] in *.

(** Runs the methods in [E]: unfolds the code of the module and the
    record projections, and nothing of the arithmetic nor of what
    [communicate()] answers. *)
Ltac eval_bash E :=
  cbv beta iota zeta delta
    [kill check_code is_timeout is_complete _log Popen_communicate
     Popen_wait Popen_kill Popen_poll on_process time_time setattr getattr
     bind ret reaped with_process with_stdout with_stderr with_code
     with_e_time with_status running Status_eqb negb fst snd
     self world assigned args cmd _process stdin stdout stderr code e_codes
     pid s_time e_time m_time status p_pid p_args returncode stdin_sent
     stdin_closed signalled _communication_started _fileobj2output
     polls reads log_file drains] in E.

Ltac split_state st :=
  destruct st as [[? ? [] ? ? ? ? ? ? ? ? ? ?] [] ?].

(** Uses in [E] the hypotheses that tell what the polls, the clock and
    [communicate()] answer. *)
Ltac use_answers E :=
  repeat match goal with
         | H : os_poll _ _ = _ |- _ => progress (rewrite H in E); eval_bash E
         | H : Qgt_bool _ _ = _ |- _ => progress (rewrite H in E); eval_bash E
         | H : drain_result _ _ _ _ _ _ = _ |- _ =>
             progress (rewrite H in E); eval_bash E
         end.

(** Case analysis on what a call of a method on a running instance meets:
    the answers of the non-blocking waits, the test of the deadline, and
    what [communicate()] answers. *)
Ltac branches E :=
  repeat match type of E with
         | context [match ?r with Some _ => _ | None => _ end] =>
             revert E; destruct r eqn:?; intro E; eval_bash E; use_answers E
         | context [if Qgt_bool ?a ?b then _ else _] =>
             revert E; destruct (Qgt_bool a b) eqn:?; intro E; eval_bash E;
             use_answers E
         | context [match drain_result ?o ?a ?c ?s ?m ?k with
                    | Returns _ => _ | Raises _ => _ end] =>
             revert E;
             destruct (drain_result o a c s m k) as [[? ?]|?] eqn:?;
             intro E; eval_bash E; use_answers E
         end.

(** Runs the call of method [f] on the fields of [st], branch by branch,
    in an equation that names its result, and closes the branches that the
    hypotheses exclude. *)
Ltac exec_call f os st :=
  split_state st; eval_proj; subst;
  repeat match goal with
         | H : match ?x with Some _ => _ | None => _ end = _ |- _ =>
             destruct x eqn:?; try discriminate H
         end;
  match goal with
  | |- context [f os ?s] =>
      let r := fresh "r" in
      remember (f os s) as r;
      match goal with
      | E : r = f os s |- _ =>
          eval_bash E; use_answers E; branches E; eval_proj; try congruence;
          repeat match goal with
                 | H : Some _ = Some _ |- _ => injection H as H
                 | H : Returns _ = Returns _ |- _ => injection H as H
                 | H : (_, _) = (_, _) |- _ => injection H as H
                 end;
          subst; eval_proj
      end
  end.

(** Counts the assignments in a list that ends with the ones just made. *)
Ltac count_assigned count_app :=
  rewrite ?count_app; cbn [times filter Attr_eqb List.length Nat.add];
  repeat match goal with
         | H : times _ _ = _ |- _ => rewrite H
         end;
  cbn [Nat.add].

(** Closes the cases of an invariant made of equations. *)
Ltac close_inv :=
  repeat match goal with
         | H : _ /\ _ |- _ => destruct H
         | H : exists _, _ |- _ => destruct H
         end;
  subst; repeat split; eauto; try discriminate; try congruence.

(** Closes the cases of the invariant of the life cycle. *)
Ltac life_cases count_app :=
  repeat split; eauto; try discriminate; try congruence;
  try (count_assigned count_app; auto; lia);
  try solve [left; repeat split; auto; try discriminate;
             count_assigned count_app; auto; lia
            |right; repeat split; auto; try discriminate;
             count_assigned count_app; auto; lia].

(** An instance whose [kill()] raised, then checked: [communicate()]
    raises at both calls. *)
Definition twice_stamped : St :=
  call os_sleeps m_is_complete (call os_sleeps m_kill (fed 60%Q)).

(** * Properties *)

(** ** The branches of [is_complete] *)

Lemma running_false (s : Status) : running s = false <-> terminal s.
Proof. unfold terminal; destruct s; cbn; split; congruence. Qed.

Lemma running_true (s : Status) : running s = true <-> s = _S_RUN.
Proof. destruct s; cbn; split; congruence. Qed.

Lemma is_complete_done (os : OS) (st : St) :
  terminal (status (self st)) -> is_complete os st = (Returns true, st).
Proof.
  intros H. apply running_false in H.
  unfold is_complete, bind, getattr. rewrite H. reflexivity.
Qed.

(** When a check returns, its answer tells whether the status it leaves is
    terminal; when it raises, the status it leaves is terminal. *)
Lemma is_complete_result (os : OS) (st : St) :
  match fst (is_complete os st) with
  | Returns b => b = negb (running (status (self (snd (is_complete os st)))))
  | Raises _ => terminal (status (self (snd (is_complete os st))))
  end.
Proof.
  destruct (running (status (self st))) eqn:R.
  - apply running_true in R. exec_call is_complete os st;
      try reflexivity; discriminate.
  - rewrite is_complete_done by (now apply running_false).
    cbn [fst snd]. now rewrite R.
Qed.

Lemma is_complete_true_terminal (os : OS) (st st' : St) :
  is_complete os st = (Returns true, st') -> terminal (status (self st')).
Proof.
  intros H. pose proof (is_complete_result os st) as E.
  rewrite H in E. cbn in E. apply running_false.
  now destruct (running (status (self st'))).
Qed.

Lemma checks_done (os : OS) (n : nat) (st : St) :
  terminal (status (self st)) -> checks os n st = (repeat (Returns true) n, st).
Proof.
  intros T. induction n as [|n IH]; [reflexivity|].
  cbn [checks repeat]. rewrite is_complete_done by exact T. now rewrite IH.
Qed.

(** The exit branch of [is_complete], when [communicate()] returns. *)
Lemma is_complete_exit (os : OS) (st : St) (n : Z) (o e : option string) :
  status (self st) = _S_RUN ->
  observed os st = Some n ->
  drain os st = Returns (o, e) ->
  let r := is_complete os st in
  fst r = Returns true
  /\ status (self (snd r)) = _S_COMPLETE
  /\ code (self (snd r)) = Some n
  /\ e_time (self (snd r)) = Some (os_time os (reads (world st)))
  /\ stdout (self (snd r)) = o
  /\ stderr (self (snd r)) = e
  /\ log_file (world (snd r)) = (log_file (world st) ++ [log_record (self (snd r))])%list
  /\ assigned (snd r)
     = (assigned st ++ [A_code; A_status; A_e_time; A_stdout; A_stderr])%list.
Proof.
  intros R O D r. subst r. exec_call is_complete os st.
  all: repeat split; rewrite <- ?app_assoc; reflexivity.
Qed.

(** The exit branch of [is_complete], when [communicate()] raises: the
    exception comes out of the check after the status and the end time
    were assigned, and before the streams and the log record. *)
Lemma is_complete_exit_raises (os : OS) (st : St) (n : Z) (x : Exc) :
  status (self st) = _S_RUN ->
  observed os st = Some n ->
  drain os st = Raises x ->
  let r := is_complete os st in
  fst r = Raises x
  /\ status (self (snd r)) = _S_COMPLETE
  /\ code (self (snd r)) = Some n
  /\ e_time (self (snd r)) = Some (os_time os (reads (world st)))
  /\ stdout (self (snd r)) = stdout (self st)
  /\ stderr (self (snd r)) = stderr (self st)
  /\ log_file (world (snd r)) = log_file (world st)
  /\ assigned (snd r) = (assigned st ++ [A_code; A_status; A_e_time])%list.
Proof.
  intros R O D r. subst r. exec_call is_complete os st.
  all: repeat split; rewrite <- ?app_assoc; reflexivity.
Qed.

(** The timeout branch of [is_complete], when [communicate()] returns. *)
Lemma is_complete_timeout (os : OS) (st : St) (o e : option string) :
  status (self st) = _S_RUN ->
  observed os st = None ->
  overdue os st = true ->
  drain os st = Returns (o, e) ->
  let r := is_complete os st in
  fst r = Returns true
  /\ status (self (snd r)) = _S_TIMEOUT
  /\ code (self (snd r)) = code (self st)
  /\ e_time (self (snd r)) = Some (os_time os (S (reads (world st))))
  /\ stdout (self (snd r)) = o
  /\ stderr (self (snd r)) = e
  /\ log_file (world (snd r)) = (log_file (world st) ++ [log_record (self (snd r))])%list
  /\ assigned (snd r) = (assigned st ++ [A_status; A_e_time; A_stdout; A_stderr])%list.
Proof.
  intros R O D C r. subst r. exec_call is_complete os st.
  all: repeat split; rewrite <- ?app_assoc; reflexivity.
Qed.

(** The timeout branch of [is_complete], when [communicate()] raises. *)
Lemma is_complete_timeout_raises (os : OS) (st : St) (x : Exc) :
  status (self st) = _S_RUN ->
  observed os st = None ->
  overdue os st = true ->
  drain os st = Raises x ->
  let r := is_complete os st in
  fst r = Raises x
  /\ status (self (snd r)) = _S_TIMEOUT
  /\ code (self (snd r)) = code (self st)
  /\ e_time (self (snd r)) = Some (os_time os (S (reads (world st))))
  /\ stdout (self (snd r)) = stdout (self st)
  /\ stderr (self (snd r)) = stderr (self st)
  /\ log_file (world (snd r)) = log_file (world st)
  /\ assigned (snd r) = (assigned st ++ [A_status; A_e_time])%list.
Proof.
  intros R O D C r. subst r. exec_call is_complete os st.
  all: repeat split; rewrite <- ?app_assoc; reflexivity.
Qed.


(** Neither branch: the child is still running and within its time. *)
Lemma is_complete_pending (os : OS) (st : St) :
  status (self st) = _S_RUN ->
  observed os st = None ->
  overdue os st = false ->
  is_complete os st
  = (Returns false,
     mkSt (self st)
          (mkWorld (S (polls (world st))) (S (reads (world st)))
                   (log_file (world st)) (drains (world st)))
          (assigned st)).
Proof.
  intros R O D. exec_call is_complete os st; reflexivity.
Qed.

Lemma snd_is_timeout (os : OS) (st : St) :
  snd (is_timeout os st) = snd (is_complete os st).
Proof.
  unfold is_timeout, bind, getattr, ret.
  destruct (is_complete os st) as [[[]|] st']; reflexivity.
Qed.

Lemma snd_check_code (os : OS) (st : St) :
  snd (check_code os st) = snd (is_complete os st).
Proof.
  unfold check_code, bind, getattr, ret.
  destruct (is_complete os st) as [[[]|] st']; reflexivity.
Qed.

(** ** [kill] *)

(** When its own check finds the process complete, [kill] does no more
    than that check; when the check raises, so does [kill]. *)
Lemma kill_when_complete (os : OS) (st : St) :
  fst (is_complete os st) = Returns true ->
  kill os st = (Returns tt, snd (is_complete os st)).
Proof.
  intros H. unfold kill, bind.
  destruct (is_complete os st) as [c st']. cbn in *. subst. reflexivity.
Qed.

Lemma kill_when_raises (os : OS) (st : St) (x : Exc) :
  fst (is_complete os st) = Raises x ->
  kill os st = (Raises x, snd (is_complete os st)).
Proof.
  intros H. unfold kill, bind.
  destruct (is_complete os st) as [c st']. cbn in *. subst. reflexivity.
Qed.

Lemma kill_done (os : OS) (st : St) :
  terminal (status (self st)) -> kill os st = (Returns tt, st).
Proof.
  intros H. rewrite kill_when_complete; rewrite is_complete_done; auto.
Qed.

(** The child is running and within its time: it is killed.  The signal
    is sent unless the poll of [Popen.kill()] finds the child exited. *)
Lemma kill_running (os : OS) (st : St) (o e : option string) :
  status (self st) = _S_RUN ->
  observed os st = None ->
  overdue os st = false ->
  drain os st = Returns (o, e) ->
  let r := kill os st in
  fst r = Returns tt
  /\ status (self (snd r)) = _S_KILL
  /\ code (self (snd r)) = code (self st)
  /\ e_time (self (snd r)) = Some (os_time os (S (reads (world st))))
  /\ stdout (self (snd r)) = o
  /\ stderr (self (snd r)) = e
  /\ match found_dead os st with
     | Some c => returncode (_process (self (snd r))) = Some c
                 /\ signalled (_process (self (snd r)))
                    = signalled (_process (self st))
     | None => returncode (_process (self (snd r))) = Some (os_reap os)
               /\ signalled (_process (self (snd r))) = true
     end
  /\ log_file (world (snd r)) = log_file (world st)
  /\ assigned (snd r) = (assigned st ++ [A_e_time; A_stdout; A_stderr; A_status])%list.
Proof.
  intros R O D C r. subst r. exec_call kill os st.
  all: repeat match goal with
              | H : ?x = _ |- context [match ?x with _ => _ end] => rewrite H
              end; repeat split; rewrite <- ?app_assoc; reflexivity.
Qed.

(** The same when [communicate()] raises: the exception comes out of
    [kill] after the end time was assigned and before the status, which
    stays running. *)
Lemma kill_running_raises (os : OS) (st : St) (x : Exc) :
  status (self st) = _S_RUN ->
  observed os st = None ->
  overdue os st = false ->
  drain os st = Raises x ->
  let r := kill os st in
  fst r = Raises x
  /\ status (self (snd r)) = _S_RUN
  /\ code (self (snd r)) = code (self st)
  /\ e_time (self (snd r)) = Some (os_time os (S (reads (world st))))
  /\ stdout (self (snd r)) = stdout (self st)
  /\ stderr (self (snd r)) = stderr (self st)
  /\ returncode (_process (self (snd r))) <> None
  /\ log_file (world (snd r)) = log_file (world st)
  /\ assigned (snd r) = (assigned st ++ [A_e_time])%list.
Proof.
  intros R O D C r. subst r. exec_call kill os st.
  all: repeat split; rewrite <- ?app_assoc; try reflexivity; discriminate.
Qed.

(** What the two branches assign before they call [communicate()], and so
    whether it returns or raises. *)
Lemma is_complete_exit_status (os : OS) (st : St) (n : Z) :
  status (self st) = _S_RUN ->
  observed os st = Some n ->
  status (self (snd (is_complete os st))) = _S_COMPLETE
  /\ code (self (snd (is_complete os st))) = Some n
  /\ e_time (self (snd (is_complete os st))) = Some (os_time os (reads (world st))).
Proof.
  intros R O. exec_call is_complete os st; repeat split; reflexivity.
Qed.

Lemma is_complete_timeout_status (os : OS) (st : St) :
  status (self st) = _S_RUN ->
  observed os st = None ->
  overdue os st = true ->
  status (self (snd (is_complete os st))) = _S_TIMEOUT
  /\ code (self (snd (is_complete os st))) = code (self st)
  /\ e_time (self (snd (is_complete os st)))
     = Some (os_time os (S (reads (world st)))).
Proof.
  intros R O D. exec_call is_complete os st; repeat split; reflexivity.
Qed.

(** ** What [communicate()] answers *)

(** After a payload was written to the stdin pipe and the pipe closed, a
    first [communicate()] that has another pipe to read raises. *)
Lemma drain_after_payload (os : OS) (a : PopenArgs) (mapped : bool) (k : nat) :
  piped (a_stdin a) = true ->
  piped (a_stdout a) || piped (a_stderr a) = true ->
  drain_result os a true false mapped k
  = Raises (ValueError "I/O operation on closed file.").
Proof.
  intros I P. unfold drain_result, one_pipe_at_most. rewrite I.
  destruct (piped (a_stdout a)), (piped (a_stderr a)); try discriminate;
    reflexivity.
Qed.

(** Without a stdin pipe, a first [communicate()] returns what it reads. *)
Lemma drain_without_stdin (os : OS) (a : PopenArgs) (closed mapped : bool)
      (k : nat) (out err : string) :
  piped (a_stdin a) = false ->
  os_drain os k = Drained out err ->
  drain_result os a closed false mapped k
  = Returns (if piped (a_stdout a) then Some out else None,
             if piped (a_stderr a) then Some err else None).
Proof.
  intros I D. unfold drain_result, one_pipe_at_most, read_pipes. rewrite I, D.
  destruct (piped (a_stdout a)), (piped (a_stderr a)); reflexivity.
Qed.

(** What [communicate()] returns for a stream is [None] unless the stream
    is a pipe, and then a text that was read. *)
Lemma drain_result_value (os : OS) (a : PopenArgs) (closed started mapped : bool)
      (k : nat) (o e : option string) :
  drain_result os a closed started mapped k = Returns (o, e) ->
  stream_value os (fun out _ => out) (a_stdout a) o
  /\ stream_value os (fun _ err => err) (a_stderr a) e.
Proof.
  unfold drain_result, one_pipe_at_most, read_pipes, stream_value.
  destruct (os_drain os k) as [out err|msg] eqn:D;
    destruct (piped (a_stdin a)), (piped (a_stdout a)), (piped (a_stderr a)),
      started, closed, mapped; cbn; intros H; try discriminate;
      inversion H; subst; split; eauto.
Qed.

Lemma drain_sleeping (os : OS) (m : Q) :
  os_drain os O = Drained "out" "err" ->
  drain os (sleeping m) = Returns (Some "out", Some "err").
Proof.
  intros H. unfold drain, sleeping, instance.
  cbn [self world _process p_args stdin_closed _communication_started
       _fileobj2output drains].
  rewrite (drain_without_stdin os _ false false 0 "out" "err")
    by (reflexivity || exact H).
  reflexivity.
Qed.

(** The instance fed with a payload cannot be drained. *)
Lemma drain_fed (os : OS) (m : Q) :
  drain os (fed m) = Raises (ValueError "I/O operation on closed file.").
Proof.
  unfold drain, fed, instance.
  cbn [self world _process p_args stdin_closed _communication_started
       _fileobj2output drains].
  now rewrite drain_after_payload.
Qed.

(** ** The stored [m_time] *)

(** The constructor stores the [m_time] it is given, whatever its value;
    only [None] is replaced, by [_L_MAX_TIME]. *)
Lemma Bash_init_m_time (os : OS) (k : Kwargs) (w w' : World) (b : Bash) :
  Bash_init os k w = (inr b, w') ->
  m_time b = match k_m_time k with Some m => m | None => _L_MAX_TIME end.
Proof.
  unfold Bash_init.
  destruct (Popen_new os _) as [e|p]; [discriminate|].
  destruct (is_payload (k_stdin k)); [destruct (stdin_write_close os _ p)|];
    intros H; inversion H; reflexivity.
Qed.

(** C1: the stored [m_time] should lie within [0, _L_MAX_TIME]
    (172800 seconds) for every constructed instance.  It does not: built
    with [m_time=200000], or with [m_time=-5], the instance stores that
    value unchanged. *)
Theorem C1_m_time_not_limited :
  (exists b w,
      Bash_init os_sleeps (with_m_time (Some 200000%Q) piped_sleep) world0 = (inr b, w)
      /\ m_time b = 200000%Q /\ ~ in_limits (m_time b))
  /\ (exists b w,
      Bash_init os_sleeps (with_m_time (Some (-5)%Q) piped_sleep) world0 = (inr b, w)
      /\ m_time b = (-5)%Q /\ ~ in_limits (m_time b)).
Proof.
  split; eexists; eexists; (split; [reflexivity|]); (split; [reflexivity|]);
    cbn; unfold in_limits, _L_MAX_TIME; intros [H1 H2];
    apply Qle_bool_iff in H1, H2; vm_compute in H1, H2; discriminate.
Qed.

(** With [m_time=0] the first check of a running child takes the timeout
    branch as soon as the clock has moved since the constructor read it. *)
Lemma zero_m_time_times_out (os : OS) (st : St) :
  status (self st) = _S_RUN ->
  observed os st = None ->
  (m_time (self st) == 0)%Q ->
  (s_time (self st) < os_time os (reads (world st)))%Q ->
  status (self (snd (is_complete os st))) = _S_TIMEOUT.
Proof.
  intros R O Z T. apply is_complete_timeout_status; auto.
  unfold overdue, Qgt_bool. apply negb_true_iff.
  destruct (Qle_bool _ _) eqn:E; [|reflexivity].
  apply Qle_bool_iff in E. rewrite Z in E. lra.
Qed.

(** ** C2: what [kill] does *)




(** ** C3: the log record *)

(** A transition made by [is_complete] itself appends one record, when
    the check returns. *)
Lemma is_complete_logs_transition (os : OS) (st : St) :
  status (self st) = _S_RUN ->
  fst (is_complete os st) = Returns true ->
  log_file (world (snd (is_complete os st)))
  = (log_file (world st) ++ [log_record (self (snd (is_complete os st)))])%list.
Proof.
  intros R T. destruct (drain os st) as [[o e]|x] eqn:C;
    destruct (observed os st) as [n|] eqn:O.
  - apply (is_complete_exit os st n o e R O C).
  - destruct (overdue os st) eqn:D.
    + apply (is_complete_timeout os st o e R O D C).
    + rewrite (is_complete_pending os st R O D) in T. discriminate.
  - destruct (is_complete_exit_raises os st n x R O C) as (X & _). congruence.
  - destruct (overdue os st) eqn:D.
    + destruct (is_complete_timeout_raises os st x R O D C) as (X & _).
      congruence.
    + rewrite (is_complete_pending os st R O D) in T. discriminate.
Qed.

(** C3: one record should be appended to the log on the transition into
    any of the three terminal states.  On the transition into killed none
    is: [kill()] on a running child that is within its time leaves the
    instance killed and the log as it was, and the checks that follow add
    nothing either. *)
Theorem C3_kill_leaves_no_record :
  exists st,
    start os_sleeps piped_sleep = Some st
    /\ status (self st) = _S_RUN
    /\ log_file (world st) = []
    /\ status (self (snd (kill os_sleeps st))) = _S_KILL
    /\ log_file (world (snd (kill os_sleeps st))) = []
    /\ forall n,
        log_file (world (snd (checks os_sleeps n (snd (kill os_sleeps st))))) = [].
Proof.
  exists (sleeping 60%Q). repeat (split; [vm_compute; reflexivity|]).
  intros n. rewrite checks_done by (vm_compute; discriminate).
  vm_compute. reflexivity.
Qed.

(** ** C4: the order of the assignments on a transition *)


(** After a call that returns and leaves a terminal status, the end time
    is set and the captured streams hold what [communicate()] returned. *)
Lemma is_complete_consistent (os : OS) (st : St) (o e : option string) :
  status (self st) = _S_RUN ->
  drain os st = Returns (o, e) ->
  terminal (status (self (snd (is_complete os st)))) ->
  e_time (self (snd (is_complete os st))) <> None
  /\ stdout (self (snd (is_complete os st))) = o
  /\ stderr (self (snd (is_complete os st))) = e.
Proof.
  intros R C T. destruct (observed os st) as [n|] eqn:O.
  - destruct (is_complete_exit os st n o e R O C) as (_ & _ & _ & E & So & Se & _).
    rewrite E. split; [discriminate|]. now split.
  - destruct (overdue os st) eqn:D.
    + destruct (is_complete_timeout os st o e R O D C)
        as (_ & _ & _ & E & So & Se & _).
      rewrite E. split; [discriminate|]. now split.
    + rewrite (is_complete_pending os st R O D) in T. now contradiction T.
Qed.


Lemma kill_consistent (os : OS) (st : St) (o e : option string) :
  status (self st) = _S_RUN ->
  drain os st = Returns (o, e) ->
  e_time (self (snd (kill os st))) <> None
  /\ stdout (self (snd (kill os st))) = o
  /\ stderr (self (snd (kill os st))) = e.
Proof.
  intros R C. destruct (observed os st) as [n|] eqn:O.
  - destruct (is_complete_exit os st n o e R O C) as (T & _ & _ & E & So & Se & _).
    rewrite kill_when_complete by exact T. cbn [snd].
    rewrite E. split; [discriminate|]. now split.
  - destruct (overdue os st) eqn:D.
    + destruct (is_complete_timeout os st o e R O D C)
        as (T & _ & _ & E & So & Se & _).
      rewrite kill_when_complete by exact T. cbn [snd].
      rewrite E. split; [discriminate|]. now split.
    + destruct (kill_running os st o e R O D C) as (_ & _ & _ & E & So & Se & _).
      rewrite E. split; [discriminate|]. now split.
Qed.


Lemma call_consistent (os : OS) (m : Method) (st : St) (o e : option string) :
  status (self st) = _S_RUN ->
  drain os st = Returns (o, e) ->
  terminal (status (self (call os m st))) ->
  e_time (self (call os m st)) <> None
  /\ stdout (self (call os m st)) = o
  /\ stderr (self (call os m st)) = e.
Proof.
  intros R C. destruct m; cbn [call]; rewrite ?snd_is_timeout, ?snd_check_code;
    try apply (is_complete_consistent os st o e R C).
  intros _. apply (kill_consistent os st o e R C).
Qed.



Lemma start_sleeping (os : OS) (m : Q) :
  os_spawn os = (fun _ => inr 4242) ->
  os_time os O = 0%Q ->
  start os (with_m_time (Some m) piped_sleep) = Some (sleeping m).
Proof.
  intros S T. unfold start, Bash_init, Popen_new. cbn. rewrite S, T. reflexivity.
Qed.


(** ** C5: the captured streams *)

Lemma times_app (a : Attr) (l l' : list Attr) :
  times a (l ++ l') = (times a l + times a l')%nat.
Proof. unfold times. now rewrite filter_app, length_app. Qed.

(** No method changes the arguments the handle was opened with. *)
Lemma is_complete_p_args (os : OS) (st : St) :
  p_args (_process (self (snd (is_complete os st)))) = p_args (_process (self st)).
Proof.
  destruct (running (status (self st))) eqn:R.
  - apply running_true in R. exec_call is_complete os st; reflexivity.
  - now rewrite is_complete_done by (now apply running_false).
Qed.

Lemma kill_p_args (os : OS) (st : St) :
  p_args (_process (self (snd (kill os st)))) = p_args (_process (self st)).
Proof.
  destruct (running (status (self st))) eqn:R.
  - apply running_true in R. exec_call kill os st; reflexivity.
  - now rewrite kill_done by (now apply running_false).
Qed.

(** A check answers false only on a running instance whose child it finds
    running and within its time. *)
Lemma is_complete_false (os : OS) (st : St) :
  fst (is_complete os st) = Returns false ->
  status (self st) = _S_RUN /\ observed os st = None /\ overdue os st = false.
Proof.
  intros F. pose proof (is_complete_result os st) as E. rewrite F in E.
  symmetry in E. apply negb_false_iff, running_true in E.
  destruct (running (status (self st))) eqn:R.
  - apply running_true in R. split; [exact R|].
    destruct (observed os st) as [n|] eqn:O.
    + destruct (is_complete_exit_status os st n R O) as (X & _). congruence.
    + split; [reflexivity|]. destruct (overdue os st) eqn:D; [|reflexivity].
      destruct (is_complete_timeout_status os st R O D) as (X & _). congruence.
  - rewrite is_complete_done in F by (now apply running_false). discriminate.
Qed.

Lemma drain_value (os : OS) (st : St) (o e : option string) :
  drain os st = Returns (o, e) ->
  stream_value os (fun out _ => out) (a_stdout (p_args (_process (self st)))) o
  /\ stream_value os (fun _ err => err) (a_stderr (p_args (_process (self st)))) e.
Proof. apply drain_result_value. Qed.

Lemma capture_inv_is_complete (os : OS) (st : St) :
  capture_inv os st -> capture_inv os (snd (is_complete os st)).
Proof.
  intros H. destruct (running (status (self st))) eqn:R.
  2: now rewrite is_complete_done by (now apply running_false).
  apply running_true in R. unfold capture_inv in *.
  destruct H as [(To & Te & So & Se)|(T & _)]; [|now contradiction T].
  rewrite is_complete_p_args.
  destruct (observed os st) as [n|] eqn:O; [|destruct (overdue os st) eqn:D].
  - destruct (drain os st) as [[o e]|x] eqn:C.
    + destruct (is_complete_exit os st n o e R O C)
        as (_ & S & _ & _ & Xo & Xe & _ & A).
      destruct (drain_value os st o e C) as (Vo & Ve).
      right. rewrite S, A, Xo, Xe. split; [discriminate|].
      split; [count_assigned times_app; reflexivity|].
      split; [count_assigned times_app; reflexivity|]. now split.
    + destruct (is_complete_exit_raises os st n x R O C)
        as (_ & _ & _ & _ & Xo & Xe & _ & A).
      left. rewrite A, Xo, Xe.
      split; [count_assigned times_app; reflexivity|].
      split; [count_assigned times_app; reflexivity|]. now split.
  - destruct (drain os st) as [[o e]|x] eqn:C.
    + destruct (is_complete_timeout os st o e R O D C)
        as (_ & S & _ & _ & Xo & Xe & _ & A).
      destruct (drain_value os st o e C) as (Vo & Ve).
      right. rewrite S, A, Xo, Xe. split; [discriminate|].
      split; [count_assigned times_app; reflexivity|].
      split; [count_assigned times_app; reflexivity|]. now split.
    + destruct (is_complete_timeout_raises os st x R O D C)
        as (_ & _ & _ & _ & Xo & Xe & _ & A).
      left. rewrite A, Xo, Xe.
      split; [count_assigned times_app; reflexivity|].
      split; [count_assigned times_app; reflexivity|]. now split.
  - rewrite (is_complete_pending os st R O D). cbn [snd self assigned].
    left. now repeat split.
Qed.

Lemma capture_inv_kill (os : OS) (st : St) :
  capture_inv os st -> capture_inv os (snd (kill os st)).
Proof.
  intros H. destruct (fst (is_complete os st)) as [[]|x] eqn:C.
  - rewrite kill_when_complete by exact C. now apply capture_inv_is_complete.
  - destruct (is_complete_false os st C) as (R & O & D).
    unfold capture_inv in *.
    destruct H as [(To & Te & So & Se)|(T & _)]; [|now contradiction T].
    rewrite kill_p_args.
    destruct (drain os st) as [[o e]|y] eqn:Dr.
    + destruct (kill_running os st o e R O D Dr)
        as (_ & S & _ & _ & Xo & Xe & _ & _ & A).
      destruct (drain_value os st o e Dr) as (Vo & Ve).
      right. rewrite S, A, Xo, Xe. split; [discriminate|].
      split; [count_assigned times_app; reflexivity|].
      split; [count_assigned times_app; reflexivity|]. now split.
    + destruct (kill_running_raises os st y R O D Dr)
        as (_ & _ & _ & _ & Xo & Xe & _ & _ & A).
      left. rewrite A, Xo, Xe.
      split; [count_assigned times_app; reflexivity|].
      split; [count_assigned times_app; reflexivity|]. now split.
  - rewrite (kill_when_raises os st x C). now apply capture_inv_is_complete.
Qed.

(** A property of the state built by the constructor that the checks, the
    kills and the moves of the world keep holds of every reachable state. *)
Lemma reachable_invariant (os : OS) (P : St -> Prop) :
  (forall k w w' b, Bash_init os k w = (inr b, w') -> P (mkSt b w' [])) ->
  (forall st, P st -> P (snd (is_complete os st))) ->
  (forall st, P st -> P (snd (kill os st))) ->
  (forall st w, P st -> P (mkSt (self st) w (assigned st))) ->
  forall st, reachable os st -> P st.
Proof.
  intros I C K W st R.
  induction R as [k w w' b E | m st _ IH | st w _ IH].
  - eauto.
  - destruct m; cbn [call]; rewrite ?snd_is_timeout, ?snd_check_code; auto.
  - auto.
Qed.

Lemma Bash_init_fresh (os : OS) (k : Kwargs) (w w' : World) (b : Bash) :
  Bash_init os k w = (inr b, w') ->
  status b = _S_RUN /\ code b = None /\ e_time b = None
  /\ stdout b = Some "" /\ stderr b = Some ""
  /\ returncode (_process b) = None /\ signalled (_process b) = false.
Proof.
  unfold Bash_init, Popen_new.
  destruct (os_spawn os _) as [e|n]; [discriminate|].
  destruct (is_payload (k_stdin k)).
  - unfold stdin_write_close. destruct (k_stdin k); try discriminate.
    destruct (os_write os s); [discriminate|].
    intros H. inversion H. cbn. repeat split; reflexivity.
  - intros H. inversion H. cbn. repeat split; reflexivity.
Qed.

Lemma capture_inv_reachable (os : OS) (st : St) :
  reachable os st -> capture_inv os st.
Proof.
  apply reachable_invariant.
  - intros k w w' b E. left. cbn [self assigned].
    destruct (Bash_init_fresh os k w w' b E) as (_ & _ & _ & So & Se & _).
    now repeat split.
  - apply capture_inv_is_complete.
  - apply capture_inv_kill.
  - intros s w H. exact H.
Qed.

(** A call that returns and takes a running instance to a terminal status
    has assigned each stream once more. *)
Lemma call_assigns_streams (os : OS) (m : Method) (st : St) (o e : option string) :
  status (self st) = _S_RUN ->
  drain os st = Returns (o, e) ->
  terminal (status (self (call os m st))) ->
  times A_stdout (assigned (call os m st)) = S (times A_stdout (assigned st))
  /\ times A_stderr (assigned (call os m st)) = S (times A_stderr (assigned st)).
Proof.
  intros R C.
  assert (I : terminal (status (self (snd (is_complete os st)))) ->
              times A_stdout (assigned (snd (is_complete os st)))
              = S (times A_stdout (assigned st))
              /\ times A_stderr (assigned (snd (is_complete os st)))
                 = S (times A_stderr (assigned st))).
  { intros T. destruct (observed os st) as [n|] eqn:O.
    - destruct (is_complete_exit os st n o e R O C) as (_ & _ & _ & _ & _ & _ & _ & A).
      rewrite A, !times_app. cbn. lia.
    - destruct (overdue os st) eqn:D.
      + destruct (is_complete_timeout os st o e R O D C)
          as (_ & _ & _ & _ & _ & _ & _ & A).
        rewrite A, !times_app. cbn. lia.
      + rewrite (is_complete_pending os st R O D) in T. now contradiction T. }
  destruct m; cbn [call]; rewrite ?snd_is_timeout, ?snd_check_code; auto.
  intros _. destruct (observed os st) as [n|] eqn:O.
  - destruct (is_complete_exit os st n o e R O C) as (T & S & _).
    rewrite kill_when_complete by exact T. cbn [snd]. apply I.
    rewrite S. discriminate.
  - destruct (overdue os st) eqn:D.
    + destruct (is_complete_timeout os st o e R O D C) as (T & S & _).
      rewrite kill_when_complete by exact T. cbn [snd]. apply I.
      rewrite S. discriminate.
    + destruct (kill_running os st o e R O D C)
        as (_ & _ & _ & _ & _ & _ & _ & _ & A).
      rewrite A, !times_app. cbn. lia.
Qed.

(** C5 (as stated, refuted): with the default redirection (stdout and
    stderr inherited) the terminal transition assigns [None], not a string,
    to both captured streams. *)
Lemma C5_inherited_streams_give_None :
  exists st,
    start (os_exits 0) (defaults "exit 0") = Some st
    /\ stdout (self st) = Some "" /\ stderr (self st) = Some ""
    /\ status (self (snd (is_complete (os_exits 0) st))) = _S_COMPLETE
    /\ stdout (self (snd (is_complete (os_exits 0) st))) = None
    /\ stderr (self (snd (is_complete (os_exits 0) st))) = None.
Proof.
  eexists. split; [reflexivity|].
  repeat (split; [vm_compute; reflexivity|]). vm_compute. reflexivity.
Qed.

(** C5 (amended): the two captured streams are the empty string, and have
    not been assigned by any method, from construction for as long as the
    status is running.  A call that takes a running instance to a terminal
    status, and whose [communicate()] returns, assigns each of them once,
    with what [communicate()] returned for it.  So on a terminal instance
    each has been assigned exactly once, with [None] when the stream was
    not opened with [PIPE] and with a text read from it when it was, or
    has not been assigned at all and is still the empty string. *)
Theorem C5_captured_streams (os : OS) (st : St) :
  reachable os st ->
  (status (self st) = _S_RUN ->
   stdout (self st) = Some "" /\ stderr (self st) = Some ""
   /\ times A_stdout (assigned st) = O /\ times A_stderr (assigned st) = O)
  /\ (status (self st) = _S_RUN ->
      forall m o e,
        drain os st = Returns (o, e) ->
        terminal (status (self (call os m st))) ->
        times A_stdout (assigned (call os m st)) = 1%nat
        /\ times A_stderr (assigned (call os m st)) = 1%nat
        /\ stdout (self (call os m st)) = o
        /\ stderr (self (call os m st)) = e)
  /\ (terminal (status (self st)) ->
      (times A_stdout (assigned st) = 1%nat
       /\ times A_stderr (assigned st) = 1%nat
       /\ stream_value os (fun out _ => out)
                       (a_stdout (p_args (_process (self st)))) (stdout (self st))
       /\ stream_value os (fun _ err => err)
                       (a_stderr (p_args (_process (self st)))) (stderr (self st)))
      \/ (times A_stdout (assigned st) = O
          /\ times A_stderr (assigned st) = O
          /\ stdout (self st) = Some "" /\ stderr (self st) = Some "")).
Proof.
  intros H. apply capture_inv_reachable in H. unfold capture_inv in H.
  assert (Run : status (self st) = _S_RUN ->
                stdout (self st) = Some "" /\ stderr (self st) = Some ""
                /\ times A_stdout (assigned st) = O
                /\ times A_stderr (assigned st) = O).
  { intros S. destruct H as [(To & Te & So & Se)|(T & _)]; [now repeat split|].
    now contradiction T. }
  split; [exact Run|]. split.
  - intros S m o e C T. destruct (Run S) as (_ & _ & To & Te).
    destruct (call_assigns_streams os m st o e S C T) as (Ao & Ae).
    destruct (call_consistent os m st o e S C T) as (_ & Xo & Xe).
    rewrite Ao, Ae, To, Te. now repeat split.
  - intros T. destruct H as [(To & Te & So & Se)|(_ & To & Te & Vo & Ve)].
    + right. now repeat split.
    + left. now repeat split.
Qed.

Lemma reachable_sleeping (os : OS) (m : Q) :
  os_spawn os = (fun _ => inr 4242) ->
  os_time os O = 0%Q ->
  reachable os (sleeping m).
Proof.
  intros S T.
  apply (reach_init os (with_m_time (Some m) piped_sleep) world0).
  unfold Bash_init, Popen_new. cbn. rewrite S, T. reflexivity.
Qed.

Lemma C5_captured_streams_witness :
  (stdout (self (sleeping 60%Q)) = Some ""
   /\ stderr (self (sleeping 60%Q)) = Some ""
   /\ times A_stdout (assigned (sleeping 60%Q)) = O
   /\ times A_stderr (assigned (sleeping 60%Q)) = O)
  /\ (times A_stdout (assigned killed_sleep) = 1%nat
      /\ times A_stderr (assigned killed_sleep) = 1%nat
      /\ stdout (self killed_sleep) = Some "out"
      /\ stderr (self killed_sleep) = Some "err").
Proof.
  assert (R : reachable os_sleeps (sleeping 60%Q))
    by (apply reachable_sleeping; reflexivity).
  pose proof (C5_captured_streams os_sleeps (sleeping 60%Q) R) as (H1 & H2 & _).
  split; [exact (H1 eq_refl)|].
  apply (H2 eq_refl m_kill _ _ (drain_sleeping os_sleeps 60%Q eq_refl)).
  vm_compute. discriminate.
Defined.

(** ** C6: [is_complete] once terminal *)

(** C6: after a call of [is_complete()] has returned true, every later
    call returns true at once and leaves the instance (status, exit code,
    end time, captured streams), the world (no further poll, no further
    reading of the clock, no further log record) and the assignments made
    so far as they were, whatever the child and the clock do meanwhile. *)
Theorem C6_is_complete_idempotent (os : OS) (st st' : St) :
  is_complete os st = (Returns true, st') ->
  forall (os' : OS) (n : nat),
    is_complete os' st' = (Returns true, st')
    /\ checks os' n st' = (repeat (Returns true) n, st').
Proof.
  intros H os' n. apply is_complete_true_terminal in H.
  split; [now apply is_complete_done | now apply checks_done].
Qed.

Lemma C6_is_complete_idempotent_witness :
  is_complete os_sleeps (snd (is_complete (os_exits 7) (sleeping 60%Q)))
  = (Returns true, snd (is_complete (os_exits 7) (sleeping 60%Q)))
  /\ checks os_sleeps 3 (snd (is_complete (os_exits 7) (sleeping 60%Q)))
     = ([Returns true; Returns true; Returns true],
        snd (is_complete (os_exits 7) (sleeping 60%Q))).
Proof.
  apply (C6_is_complete_idempotent (os_exits 7) (sleeping 60%Q)).
  vm_compute. reflexivity.
Defined.

(** ** C7: [check_code] *)

(** [self.code in self.e_codes] is membership of the exit code in the
    list. *)
Lemma code_in_spec (c : option Z) (l : list Z) :
  code_in c l = true <-> exists n, c = Some n /\ In n l.
Proof.
  destruct c as [n|]; cbn.
  - rewrite existsb_exists. split.
    + intros (x & I & E). apply Z.eqb_eq in E. subst. eauto.
    + intros (x & E & I). inversion E; subst. exists x. split; [exact I|].
      apply Z.eqb_refl.
  - split; [discriminate|]. intros (n & E & _). discriminate.
Qed.



(** ** C8: the constructor *)

Lemma Bash_init_cases (os : OS) (k : Kwargs) (w : World) :
  match spawn_failure os k with
  | Some e => Bash_init os k w = (inl (mkBashError (self_args k) (k_cmd k) e), w)
  | None =>
      exists b,
        Bash_init os k w
        = (inr b, mkWorld (polls w) (S (reads w)) (log_file w) (drains w))
        /\ os_spawn os (popen_args k) = inr (pid b)
        /\ p_pid (_process b) = pid b
        /\ p_args (_process b) = popen_args k
        /\ returncode (_process b) = None
        /\ args b = self_args k /\ cmd b = k_cmd k
        /\ status b = _S_RUN
        /\ s_time b = os_time os (reads w)
        /\ code b = None /\ e_time b = None
        /\ e_codes b = k_e_codes k
  end.
Proof.
  unfold spawn_failure, Bash_init, Popen_new.
  change (mkPopenArgs _ _ _ _ _ _) with (popen_args k).
  change ([_BASH] ++ k_args k ++ ["-c"])%list with (self_args k).
  destruct (os_spawn os (popen_args k)) as [e|n]; [reflexivity|].
  destruct (is_payload (k_stdin k)).
  - change (mkPopen n (popen_args k) None None false false false false)
      with (fresh_handle n (popen_args k)).
    destruct (stdin_write_close os _ _) as [e|p] eqn:W; [reflexivity|].
    eexists. split; [reflexivity|]. cbn.
    unfold stdin_write_close in W.
    destruct (k_stdin k); try discriminate.
    destruct (os_write os s); [discriminate|]. inversion W; subst. cbn.
    repeat split; reflexivity.
  - eexists. split; [reflexivity|]. cbn. repeat split; reflexivity.
Qed.

(** C8: the constructor raises nothing but [BashError], and raises it
    exactly when the spawn, or the write of a stdin payload right after it,
    fails; the error carries [self.args], the command and the message of
    the failure, and the world is left as it was.  Otherwise it returns an
    instance whose status is running, whose pid is that of the spawned
    child, whose start time is the clock reading made, and whose exit code
    and end time are [None]. *)
Theorem C8_constructor (os : OS) (k : Kwargs) (w : World) :
  (forall msg, spawn_failure os k = Some msg ->
     Bash_init os k w = (inl (mkBashError (self_args k) (k_cmd k) msg), w))
  /\ (forall e w', Bash_init os k w = (inl e, w') ->
        spawn_failure os k = Some (_msg e)
        /\ _args e = ([_BASH] ++ k_args k ++ ["-c"])%list
        /\ _cmd e = k_cmd k /\ w' = w)
  /\ (spawn_failure os k = None ->
      exists b w', Bash_init os k w = (inr b, w'))
  /\ (forall b w', Bash_init os k w = (inr b, w') ->
        spawn_failure os k = None
        /\ status b = _S_RUN
        /\ os_spawn os (popen_args k) = inr (pid b)
        /\ s_time b = os_time os (reads w)
        /\ code b = None /\ e_time b = None).
Proof.
  pose proof (Bash_init_cases os k w) as C.
  destruct (spawn_failure os k) as [m|].
  - rewrite C. repeat split; intros; try discriminate.
    + now inversion H.
    + now inversion H.
    + now inversion H.
    + now inversion H.
    + now inversion H.
  - destruct C as (b & E & P & _ & _ & _ & _ & _ & S & T & Cd & Et & _).
    rewrite E. split; [intros; discriminate|].
    split; [intros; discriminate|].
    split; [intros; eauto|].
    intros b' w' H. inversion H; subst. repeat split; assumption.
Qed.

Lemma C8_constructor_witness :
  Bash_init os_nobash (defaults "exit 0") world0
  = (inl (mkBashError ["/usr/bin/bash"; "-c"] "exit 0"
            "[Errno 2] No such file or directory: '/usr/bin/bash'"), world0)
  /\ (exists b w', Bash_init os_sleeps piped_sleep world0 = (inr b, w'))
  /\ (spawn_failure os_sleeps piped_sleep = None
      /\ status (self (sleeping 60%Q)) = _S_RUN
      /\ os_spawn os_sleeps (popen_args piped_sleep) = inr (pid (self (sleeping 60%Q)))
      /\ s_time (self (sleeping 60%Q)) = os_time os_sleeps (reads world0)
      /\ code (self (sleeping 60%Q)) = None
      /\ e_time (self (sleeping 60%Q)) = None).
Proof.
  split; [|split].
  - apply (proj1 (C8_constructor os_nobash (defaults "exit 0") world0)). reflexivity.
  - apply (proj1 (proj2 (proj2 (C8_constructor os_sleeps piped_sleep world0)))).
    reflexivity.
  - apply (proj2 (proj2 (proj2 (C8_constructor os_sleeps piped_sleep world0)))
             (self (sleeping 60%Q)) (mkWorld 0 1 [] 0)).
    reflexivity.
Defined.

(** ** C10: the stdin guard of the constructor *)

Lemma is_payload_spec (v : PyVal) :
  is_payload v = true <-> v <> PyNone /\ v <> PyInt PIPE /\ v <> PyInt DEVNULL.
Proof.
  unfold is_payload, py_in. destruct v as [|n|s|c]; cbn.
  - split; [discriminate|]. intros (H & _). now contradiction H.
  - destruct (Z.eqb_spec n PIPE) as [->|P]; cbn.
    + split; [discriminate|]. intros (_ & H & _). now contradiction H.
    + destruct (Z.eqb_spec n DEVNULL) as [->|D]; cbn.
      * split; [discriminate|]. intros (_ & _ & H). now contradiction H.
      * split; [|reflexivity]. intros _. repeat split; congruence.
  - split; [|reflexivity]. intros _. repeat split; discriminate.
  - split; [|reflexivity]. intros _. repeat split; discriminate.
Qed.

(** C10: the guard on [stdin] knows [None], [PIPE] and [DEVNULL] only.
    Any other value, the [STDOUT] sentinel and objects that are not
    strings included, is taken as a payload: [Popen] is given [PIPE] for
    stdin and, once the child is spawned, the value is written to the pipe
    and the pipe closed.  When the value is not a [str] that write fails,
    and the constructor raises [BashError] with the message of the failure
    although the spawn succeeded. *)
Theorem C10_stdin_payload (os : OS) (k : Kwargs) (w : World) :
  (forall v, is_payload v = true
             <-> v <> PyNone /\ v <> PyInt PIPE /\ v <> PyInt DEVNULL)
  /\ is_payload (PyInt STDOUT) = true
  /\ (is_payload (k_stdin k) = true ->
      a_stdin (popen_args k) = PyInt PIPE
      /\ forall n, os_spawn os (popen_args k) = inr n ->
           (forall s, k_stdin k = PyStr s -> os_write os s = None ->
              exists b w',
                Bash_init os k w = (inr b, w')
                /\ a_stdin (p_args (_process b)) = PyInt PIPE
                /\ stdin_sent (_process b) = Some s
                /\ stdin_closed (_process b) = true)
           /\ ((forall s, k_stdin k <> PyStr s) ->
               Bash_init os k w
               = (inl (mkBashError ([_BASH] ++ k_args k ++ ["-c"])%list (k_cmd k)
                         ("write() argument must be str, not "
                          ++ py_type_name (k_stdin k))), w)))
  /\ (is_payload (k_stdin k) = false ->
      a_stdin (popen_args k) = k_stdin k
      /\ forall b w', Bash_init os k w = (inr b, w') ->
           stdin_sent (_process b) = None /\ stdin_closed (_process b) = false).
Proof.
  split; [exact is_payload_spec|]. split; [reflexivity|].
  split; intros P.
  - split; [cbn; unfold stdin_arg; now rewrite P|].
    intros n S. split.
    + intros s E W. unfold Bash_init, Popen_new.
      change (mkPopenArgs _ _ _ _ _ _) with (popen_args k).
      rewrite S, P, E. cbn. rewrite W.
      eexists. eexists. split; [reflexivity|]. cbn.
      unfold stdin_arg. rewrite P. repeat split; reflexivity.
    + intros N. unfold Bash_init, Popen_new.
      change (mkPopenArgs _ _ _ _ _ _) with (popen_args k).
      rewrite S, P. destruct (k_stdin k) as [| |s|]; cbn; try reflexivity.
      now contradiction (N s).
  - split; [cbn; unfold stdin_arg; now rewrite P|].
    intros b w'. unfold Bash_init, Popen_new.
    destruct (os_spawn os _); [discriminate|]. rewrite P.
    intros H. inversion H. cbn. split; reflexivity.
Qed.

Lemma C10_stdin_payload_witness :
  Bash_init os_sleeps (with_stdin (PyInt STDOUT) piped_sleep) world0
  = (inl (mkBashError ["/usr/bin/bash"; "-c"] "sleep 100"
            "write() argument must be str, not int"), world0)
  /\ (exists b w',
        Bash_init os_sleeps (with_stdin (PyStr "hello") piped_sleep) world0 = (inr b, w')
        /\ a_stdin (p_args (_process b)) = PyInt PIPE
        /\ stdin_sent (_process b) = Some "hello"
        /\ stdin_closed (_process b) = true)
  /\ a_stdin (popen_args (with_stdin (PyInt DEVNULL) piped_sleep)) = PyInt DEVNULL.
Proof.
  pose proof (proj1 (proj2 (proj2 (C10_stdin_payload os_sleeps
                (with_stdin (PyInt STDOUT) piped_sleep) world0))) eq_refl) as [_ O].
  pose proof (proj1 (proj2 (proj2 (C10_stdin_payload os_sleeps
                (with_stdin (PyStr "hello") piped_sleep) world0))) eq_refl) as [_ H].
  pose proof (proj2 (proj2 (proj2 (C10_stdin_payload os_sleeps
                (with_stdin (PyInt DEVNULL) piped_sleep) world0))) eq_refl) as [D _].
  split; [|split].
  - apply (proj2 (O 4242 eq_refl)). intros s. discriminate.
  - exact (proj1 (H 4242 eq_refl) "hello" eq_refl eq_refl).
  - exact D.
Defined.

(** ** C9: [run] *)

Lemma Qgt_bool_iff (a b : Q) : Qgt_bool a b = true <-> (b < a)%Q.
Proof.
  unfold Qgt_bool. rewrite negb_true_iff.
  destruct (Qle_bool a b) eqn:E.
  - apply Qle_bool_iff in E. split; [discriminate|]. intros H. lra.
  - split; [|reflexivity]. intros _.
    destruct (Qlt_le_dec b a) as [L|L]; [exact L|].
    apply Qle_bool_iff in L. congruence.
Qed.

(** The instance the constructor builds when nothing fails. *)
Lemma Bash_init_start (os : OS) (k : Kwargs) (w : World) :
  spawn_failure os k = None ->
  exists b,
    Bash_init os k w
    = (inr b, mkWorld (polls w) (S (reads w)) (log_file w) (drains w))
    /\ status b = _S_RUN /\ returncode (_process b) = None
    /\ code b = None
    /\ s_time b = os_time os (reads w) /\ m_time b = deadline k
    /\ p_args (_process b) = popen_args k
    /\ stdin_closed (_process b) = is_payload (k_stdin k)
    /\ _communication_started (_process b) = false
    /\ _fileobj2output (_process b) = false.
Proof.
  intros F. unfold spawn_failure in F. unfold Bash_init, Popen_new, deadline.
  change (mkPopenArgs _ _ _ _ _ _) with (popen_args k).
  destruct (os_spawn os (popen_args k)) as [e|n]; [discriminate|].
  unfold fresh_handle in F.
  destruct (is_payload (k_stdin k)).
  - unfold stdin_write_close in *. destruct (k_stdin k); try discriminate.
    destruct (os_write os s); [discriminate|].
    eexists. split; [reflexivity|]. cbn. repeat split; reflexivity.
  - eexists. split; [reflexivity|]. cbn. repeat split; reflexivity.
Qed.






(** * The life cycle of an instance *)

(** ** Calls on a terminal instance *)

Lemma is_timeout_done (os : OS) (st : St) :
  terminal (status (self st)) ->
  is_timeout os st = (Returns (Status_eqb (status (self st)) _S_TIMEOUT), st).
Proof.
  intros T. unfold is_timeout, bind. now rewrite is_complete_done.
Qed.

Lemma check_code_done (os : OS) (st : St) :
  terminal (status (self st)) ->
  check_code os st
  = (Returns (Some (code_in (code (self st)) (e_codes (self st)))), st).
Proof.
  intros T. unfold check_code, bind. now rewrite is_complete_done.
Qed.

(** X1: every method is without effect on an instance whose status is
    terminal: the instance, the world and the assignments stay as they
    are, whichever method is called and whatever the child and the clock
    do; [is_complete] answers true, [is_timeout] tells whether the status
    is timeout, [check_code] tells whether the stored code is expected. *)
Theorem terminal_absorbing (os : OS) (m : Method) (st : St) :
  terminal (status (self st)) ->
  call os m st = st
  /\ is_complete os st = (Returns true, st)
  /\ is_timeout os st = (Returns (Status_eqb (status (self st)) _S_TIMEOUT), st)
  /\ check_code os st
     = (Returns (Some (code_in (code (self st)) (e_codes (self st)))), st)
  /\ kill os st = (Returns tt, st).
Proof.
  intros T.
  pose proof (is_complete_done os st T) as C.
  pose proof (is_timeout_done os st T) as I.
  pose proof (check_code_done os st T) as K.
  pose proof (kill_done os st T) as D.
  repeat split; try assumption.
  destruct m; cbn [call]; rewrite ?C, ?I, ?K, ?D; reflexivity.
Qed.

Lemma terminal_absorbing_witness :
  call os_sleeps m_kill completed_sleep = completed_sleep
  /\ is_complete os_sleeps completed_sleep = (Returns true, completed_sleep)
  /\ is_timeout os_sleeps completed_sleep = (Returns false, completed_sleep)
  /\ check_code os_sleeps completed_sleep = (Returns (Some false), completed_sleep)
  /\ kill os_sleeps completed_sleep = (Returns tt, completed_sleep).
Proof.
  assert (T : terminal (status (self completed_sleep)))
    by (vm_compute; discriminate).
  pose proof (terminal_absorbing os_sleeps m_kill completed_sleep T)
    as (H1 & H2 & H3 & H4 & H5).
  assert (S : Status_eqb (status (self completed_sleep)) _S_TIMEOUT = false)
    by (vm_compute; reflexivity).
  assert (C : code_in (code (self completed_sleep))
                      (e_codes (self completed_sleep)) = false)
    by (vm_compute; reflexivity).
  rewrite S in H3. rewrite C in H4. repeat split; assumption.
Defined.

(** ** [is_timeout] *)

(** X2: [is_timeout()] changes the state exactly as [is_complete()] does
    and raises exactly what that check raises; when it returns, its answer
    is true exactly when the status it leaves is timeout. *)
Theorem is_timeout_spec (os : OS) (st : St) :
  snd (is_timeout os st) = snd (is_complete os st)
  /\ (forall x, fst (is_timeout os st) = Raises x
                <-> fst (is_complete os st) = Raises x)
  /\ (forall b, fst (is_timeout os st) = Returns b ->
        (b = true <-> status (self (snd (is_timeout os st))) = _S_TIMEOUT)).
Proof.
  pose proof (is_complete_result os st) as E.
  rewrite snd_is_timeout. split; [reflexivity|].
  unfold is_timeout, bind, getattr, ret.
  destruct (is_complete os st) as [[c|y] st']; cbn [fst snd] in *.
  - destruct c; cbn [fst]; symmetry in E.
    + split; [intros x; split; discriminate|].
      intros b H. inversion H; subst.
      destruct (status (self st')); cbn; split; congruence.
    + apply negb_false_iff, running_true in E.
      split; [intros x; split; discriminate|].
      intros b H. inversion H; subst. rewrite E. split; discriminate.
  - split; [|intros b H; discriminate].
    intros x. split; intros H; inversion H; reflexivity.
Qed.

Lemma is_timeout_spec_witness :
  fst (is_timeout os_sleeps (sleeping 0%Q)) = Returns true
  /\ status (self (snd (is_timeout (os_exits 0) (sleeping 0%Q)))) <> _S_TIMEOUT
  /\ fst (is_timeout os_sleeps (fed 0%Q))
     = Raises (ValueError "I/O operation on closed file.").
Proof.
  assert (T : fst (is_timeout os_sleeps (sleeping 0%Q)) = Returns true)
    by (vm_compute; reflexivity).
  assert (F : fst (is_timeout (os_exits 0) (sleeping 0%Q)) = Returns false)
    by (vm_compute; reflexivity).
  split; [exact T|]. split.
  - intros H.
    apply (proj2 (proj2 (is_timeout_spec (os_exits 0) (sleeping 0%Q))) _ F) in H.
    discriminate.
  - apply (proj2 (proj1 (proj2 (is_timeout_spec os_sleeps (fed 0%Q))) _)).
    vm_compute. reflexivity.
Defined.

(** ** What the methods leave alone *)

Lemma is_complete_fixed (os : OS) (st : St) :
  fixed_part (self (snd (is_complete os st))) = fixed_part (self st).
Proof.
  destruct (running (status (self st))) eqn:R.
  - apply running_true in R. unfold fixed_part.
    exec_call is_complete os st; reflexivity.
  - now rewrite is_complete_done by (now apply running_false).
Qed.

Lemma kill_fixed (os : OS) (st : St) :
  fixed_part (self (snd (kill os st))) = fixed_part (self st).
Proof.
  destruct (running (status (self st))) eqn:R.
  - apply running_true in R. unfold fixed_part.
    exec_call kill os st; reflexivity.
  - now rewrite kill_done by (now apply running_false).
Qed.

(** X5: no method changes the arguments, the command, the [stdin]
    attribute, the expected codes, the pid, the start time or the maximal
    time of an instance, nor the pid and the opening arguments of its
    handle. *)
Theorem call_keeps_fixed_part (os : OS) (m : Method) (st : St) :
  fixed_part (self (call os m st)) = fixed_part (self st).
Proof.
  destruct m; cbn [call]; rewrite ?snd_is_timeout, ?snd_check_code;
    auto using is_complete_fixed, kill_fixed.
Qed.

(** ** Invariants of the reachable states *)

Lemma lifecycle_is_complete (os : OS) (st : St) :
  lifecycle_inv os st -> lifecycle_inv os (snd (is_complete os st)).
Proof.
  intros H. destruct (running (status (self st))) eqn:R.
  2: now rewrite is_complete_done by (now apply running_false).
  apply running_true in R. unfold lifecycle_inv in *. rewrite R in H.
  destruct H as (Sg & Cd & Ts & Tc & [(Rc & Sn & Et & Te)|(Rc & Et & Te)]).
  - exec_call is_complete os st; life_cases times_app.
  - exec_call is_complete os st; life_cases times_app.
Qed.

Lemma lifecycle_kill (os : OS) (st : St) :
  lifecycle_inv os st -> lifecycle_inv os (snd (kill os st)).
Proof.
  intros H. destruct (running (status (self st))) eqn:R.
  2: now rewrite kill_done by (now apply running_false).
  apply running_true in R. unfold lifecycle_inv in *. rewrite R in H.
  destruct H as (Sg & Cd & Ts & Tc & [(Rc & Sn & Et & Te)|(Rc & Et & Te)]).
  - exec_call kill os st; life_cases times_app.
  - exec_call kill os st; life_cases times_app.
Qed.

Lemma lifecycle_reachable (os : OS) (st : St) :
  reachable os st -> lifecycle_inv os st.
Proof.
  apply reachable_invariant.
  - intros k w w' b E. unfold lifecycle_inv. cbn [self assigned].
    destruct (Bash_init_fresh os k w w' b E) as (-> & C & T & _ & _ & Rc & Sg).
    split; [congruence|]. repeat split; auto; try (left; now repeat split).
  - apply lifecycle_is_complete.
  - apply lifecycle_kill.
  - intros s w H. exact H.
Qed.

(** X3: on every reachable instance the exit code is set exactly when the
    status is completed, and it is then the return code the handle
    collected from the child. *)
Theorem code_iff_completed (os : OS) (st : St) :
  reachable os st ->
  (code (self st) <> None <-> status (self st) = _S_COMPLETE)
  /\ (status (self st) = _S_COMPLETE ->
      exists n, code (self st) = Some n
                /\ returncode (_process (self st)) = Some n).
Proof.
  intros R. apply lifecycle_reachable in R. unfold lifecycle_inv in R.
  destruct R as (_ & R). destruct (status (self st)); close_inv.
Qed.

Lemma reachable_completed_sleep : reachable (os_exits 3) completed_sleep.
Proof.
  apply (reach_call (os_exits 3) m_is_complete (sleeping 60%Q)).
  apply reachable_sleeping; reflexivity.
Qed.

Lemma reachable_timed_out_sleep : reachable os_sleeps timed_out_sleep.
Proof.
  apply (reach_call os_sleeps m_is_complete (sleeping 0%Q)).
  apply reachable_sleeping; reflexivity.
Qed.

Lemma reachable_killed_sleep : reachable os_sleeps killed_sleep.
Proof.
  apply (reach_call os_sleeps m_kill (sleeping 60%Q)).
  apply reachable_sleeping; reflexivity.
Qed.

Lemma code_iff_completed_witness :
  (exists n, code (self completed_sleep) = Some n
             /\ returncode (_process (self completed_sleep)) = Some n)
  /\ ~ code (self timed_out_sleep) <> None.
Proof.
  split.
  - apply (proj2 (code_iff_completed (os_exits 3) completed_sleep
                    reachable_completed_sleep)).
    vm_compute. reflexivity.
  - intros H.
    apply (proj1 (code_iff_completed os_sleeps timed_out_sleep
                    reachable_timed_out_sleep)) in H.
    vm_compute in H. discriminate.
Defined.

Lemma reachable_fed (os : OS) (m : Q) :
  os_spawn os = (fun _ => inr 4242) ->
  os_write os = (fun _ => None) ->
  os_time os O = 0%Q ->
  reachable os (fed m).
Proof.
  intros S W T.
  apply (reach_init os (with_stdin (PyStr "hello") (with_m_time (Some m) piped_sleep))
                    world0).
  unfold Bash_init, Popen_new. cbn. rewrite S, W, T. reflexivity.
Qed.

(** X4: on every reachable instance the status has been assigned by the
    methods never while it is running and exactly once when it is
    terminal, and the exit code once when it is completed and never
    otherwise.  The end time is set on every terminal instance; it is set
    exactly when it has been assigned, which happens twice at most, and
    twice only on a completed instance; a running instance has its end
    time set only when its child has been reaped. *)
Theorem assignment_counts (os : OS) (st : St) :
  reachable os st ->
  (terminal (status (self st)) -> e_time (self st) <> None)
  /\ times A_status (assigned st)
     = (if running (status (self st)) then 0 else 1)%nat
  /\ times A_code (assigned st)
     = (if Status_eqb (status (self st)) _S_COMPLETE then 1 else 0)%nat
  /\ (e_time (self st) = None <-> times A_e_time (assigned st) = O)
  /\ (times A_e_time (assigned st) <= 2)%nat
  /\ (times A_e_time (assigned st) = 2%nat -> status (self st) = _S_COMPLETE)
  /\ (status (self st) = _S_RUN -> e_time (self st) <> None ->
      returncode (_process (self st)) <> None).
Proof.
  intros R. apply lifecycle_reachable in R. unfold lifecycle_inv in R.
  destruct R as (_ & R). unfold terminal.
  destruct (status (self st)); cbn [running Status_eqb].
  - destruct R as (_ & Ts & Tc & [(Rc & _ & Et & Te)|(Rc & Et & Te)]);
      rewrite Ts, Tc, Te; repeat split; auto; try congruence; try lia;
      try discriminate.
  - destruct R as (_ & Ts & Tc & Et & [Te|Te]);
      rewrite Ts, Tc, Te; repeat split; auto; try congruence; try lia;
      try discriminate.
  - destruct R as (_ & _ & Ts & Tc & Et & Te);
      rewrite Ts, Tc, Te; repeat split; auto; try congruence; try lia;
      try discriminate.
  - destruct R as (_ & _ & Ts & Tc & Et & Te);
      rewrite Ts, Tc, Te; repeat split; auto; try congruence; try lia;
      try discriminate.
Qed.

Lemma assignment_counts_witness :
  e_time (self killed_sleep) <> None
  /\ times A_status (assigned killed_sleep) = 1%nat
  /\ times A_code (assigned killed_sleep) = 0%nat
  /\ status (self twice_stamped) = _S_COMPLETE.
Proof.
  pose proof (assignment_counts os_sleeps killed_sleep reachable_killed_sleep)
    as (E & S & C & _).
  assert (T : terminal (status (self killed_sleep)))
    by (vm_compute; discriminate).
  split; [exact (E T)|].
  assert (Rn : running (status (self killed_sleep)) = false)
    by (vm_compute; reflexivity).
  assert (Cm : Status_eqb (status (self killed_sleep)) _S_COMPLETE = false)
    by (vm_compute; reflexivity).
  rewrite Rn in S. rewrite Cm in C. split; [exact S|]. split; [exact C|].
  assert (R : reachable os_sleeps twice_stamped).
  { apply (reach_call os_sleeps m_is_complete).
    apply (reach_call os_sleeps m_kill).
    apply reachable_fed; reflexivity. }
  apply (proj1 (proj2 (proj2 (proj2 (proj2 (proj2
           (assignment_counts os_sleeps twice_stamped R))))))).
  vm_compute. reflexivity.
Defined.

(** X6: on every reachable instance a terminal status means that the
    child has been reaped: as long as the handle has no return code the
    status is running, no signal was sent and no end time is set.  The
    kill signal is always followed by the wait that reaps the child, whose
    status the handle then holds; and an instance that timed out or was
    killed has no exit code. *)
Theorem terminal_is_reaped (os : OS) (st : St) :
  reachable os st ->
  (terminal (status (self st)) -> returncode (_process (self st)) <> None)
  /\ (returncode (_process (self st)) = None ->
      status (self st) = _S_RUN
      /\ signalled (_process (self st)) = false
      /\ e_time (self st) = None)
  /\ (signalled (_process (self st)) = true ->
      returncode (_process (self st)) = Some (os_reap os))
  /\ (status (self st) = _S_TIMEOUT \/ status (self st) = _S_KILL ->
      code (self st) = None).
Proof.
  intros R. apply lifecycle_reachable in R. unfold lifecycle_inv in R.
  destruct R as (Sg & R). unfold terminal.
  destruct (status (self st)).
  - destruct R as (Cd & _ & _ & [(Rc & Sn & Et & _)|(Rc & Et & _)]);
      repeat split; auto; try congruence; intros [|]; discriminate.
  - destruct R as ((n & Rc & Cd) & _);
      repeat split; auto; try congruence; intros [|]; discriminate.
  - destruct R as (Rc & Cd & _); repeat split; auto; congruence.
  - destruct R as (Rc & Cd & _); repeat split; auto; congruence.
Qed.

Lemma terminal_is_reaped_witness :
  returncode (_process (self timed_out_sleep)) <> None
  /\ returncode (_process (self timed_out_sleep)) = Some (-9)
  /\ code (self timed_out_sleep) = None.
Proof.
  pose proof (terminal_is_reaped os_sleeps timed_out_sleep
                reachable_timed_out_sleep) as (H1 & _ & H3 & H4).
  assert (T : terminal (status (self timed_out_sleep)))
    by (vm_compute; discriminate).
  assert (S : status (self timed_out_sleep) = _S_TIMEOUT)
    by (vm_compute; reflexivity).
  assert (G : signalled (_process (self timed_out_sleep)) = true)
    by (vm_compute; reflexivity).
  split; [exact (H1 T)|]. split; [exact (H3 G)|]. exact (H4 (or_introl S)).
Defined.

(** ** [check_code] on reachable instances *)

Lemma check_code_fst (os : OS) (st : St) (r : option bool) :
  fst (check_code os st) = Returns r ->
  r = if running (status (self (snd (check_code os st))))
      then None
      else Some (code_in (code (self (snd (check_code os st))))
                         (e_codes (self (snd (check_code os st))))).
Proof.
  pose proof (is_complete_result os st) as E.
  unfold check_code, bind, getattr, ret.
  destruct (is_complete os st) as [[c|x] st']; cbn [fst snd] in *;
    [|discriminate].
  destruct c; cbn [negb fst snd]; symmetry in E; intros H; inversion H.
  - apply negb_true_iff in E. now rewrite E.
  - apply negb_false_iff in E. now rewrite E.
Qed.

(** X7: on a reachable instance, when [check_code()] returns, it answers
    [None] when it leaves the status running, false when it leaves it
    timeout or killed, whatever the expected codes, and, when it leaves it
    completed, a boolean that is true exactly when the return code
    collected from the child is a member of the expected codes the
    instance was built with. *)
Theorem check_code_by_status (os : OS) (st : St) (r : option bool) :
  reachable os st ->
  fst (check_code os st) = Returns r ->
  (status (self (snd (check_code os st))) = _S_RUN -> r = None)
  /\ (status (self (snd (check_code os st))) = _S_TIMEOUT
      \/ status (self (snd (check_code os st))) = _S_KILL ->
      r = Some false)
  /\ (status (self (snd (check_code os st))) = _S_COMPLETE ->
      exists n b,
        returncode (_process (self (snd (check_code os st)))) = Some n
        /\ r = Some b
        /\ (b = true <-> In n (e_codes (self st)))).
Proof.
  intros R F.
  pose proof (lifecycle_reachable os _ (reach_call os m_check_code st R)) as L.
  pose proof (is_complete_fixed os st) as X.
  rewrite <- snd_check_code in X.
  cbn [call] in L. unfold lifecycle_inv in L. destruct L as (_ & L).
  assert (Ec : e_codes (self (snd (check_code os st))) = e_codes (self st))
    by (unfold fixed_part in X; congruence).
  apply check_code_fst in F. rewrite Ec in F. subst r.
  destruct (status (self (snd (check_code os st)))); cbn [running Status_eqb].
  - repeat split; try discriminate; intros [|]; discriminate.
  - destruct L as ((n & Rc & C) & _). rewrite C.
    repeat split; try discriminate; [intros [|]; discriminate|].
    intros _. exists n. eexists. split; [exact Rc|]. split; [reflexivity|].
    rewrite code_in_spec. split.
    + intros (x & E & I). now inversion E; subst.
    + intros I. eauto.
  - destruct L as (_ & C & _). rewrite C.
    repeat split; try discriminate; reflexivity.
  - destruct L as (_ & C & _). rewrite C.
    repeat split; try discriminate; reflexivity.
Qed.

Lemma check_code_by_status_witness :
  exists n b,
    returncode (_process (self (snd (check_code (os_exits 0) (sleeping 60%Q)))))
    = Some n
    /\ Some true = Some b
    /\ (b = true <-> In n (e_codes (self (sleeping 60%Q)))).
Proof.
  apply (proj2 (proj2 (check_code_by_status (os_exits 0) (sleeping 60%Q) (Some true)
                  (reachable_sleeping (os_exits 0) 60%Q eq_refl eq_refl)
                  ltac:(vm_compute; reflexivity)))).
  vm_compute. reflexivity.
Defined.

(** ** What a call writes to the log *)







(** ** The deadline *)

Lemma Qgt_bool_false (a b : Q) : Qgt_bool a b = false <-> (a <= b)%Q.
Proof.
  unfold Qgt_bool. rewrite negb_false_iff. apply Qle_bool_iff.
Qed.



(** X10: when a check takes a running instance to timeout, the end time
    it stamps is the reading of the clock that follows the one compared
    with the deadline; so, unless the clock went backwards between the
    two, the end time is more than [m_time] after the start time. *)
Theorem timeout_end_time (os : OS) (st : St) :
  status (self st) = _S_RUN ->
  status (self (snd (is_complete os st))) = _S_TIMEOUT ->
  e_time (self (snd (is_complete os st)))
  = Some (os_time os (S (reads (world st))))
  /\ ((os_time os (reads (world st)) <= os_time os (S (reads (world st))))%Q ->
      (m_time (self st) < os_time os (S (reads (world st))) - s_time (self st))%Q).
Proof.
  intros R T. destruct (observed os st) as [n|] eqn:O.
  - destruct (is_complete_exit_status os st n R O) as (X & _). congruence.
  - destruct (overdue os st) eqn:D.
    + destruct (is_complete_timeout_status os st R O D) as (_ & _ & E).
      split; [exact E|]. intros M.
      unfold overdue in D. apply Qgt_bool_iff in D. lra.
    + rewrite (is_complete_pending os st R O D) in T. cbn in T. congruence.
Qed.

Lemma timeout_end_time_witness :
  e_time (self (snd (is_complete os_sleeps (sleeping 0%Q)))) = Some 2%Q
  /\ (m_time (self (sleeping 0%Q)) < 2 - s_time (self (sleeping 0%Q)))%Q.
Proof.
  assert (T : status (self (snd (is_complete os_sleeps (sleeping 0%Q)))) = _S_TIMEOUT)
    by (vm_compute; reflexivity).
  pose proof (timeout_end_time os_sleeps (sleeping 0%Q) eq_refl T) as (E & M).
  split; [exact E|]. apply M. apply Qle_bool_iff. vm_compute. reflexivity.
Defined.

(** ** [run] to the end *)

(** The state an instance is in after [n] checks that found the child
    running and within its time. *)
Lemma poll_until_complete_pending (os : OS) (n f : nat) (b : Bash)
      (p r : nat) (l : list LogRecord) (d : nat) (a : list Attr) :
  status b = _S_RUN ->
  returncode (_process b) = None ->
  (forall i, (i < n)%nat ->
     os_poll os (p + i) = None
     /\ (os_time os (r + i) - s_time b <= m_time b)%Q) ->
  poll_until_complete os (n + f) (mkSt b (mkWorld p r l d) a)
  = poll_until_complete os f (mkSt b (mkWorld (p + n) (r + n) l d) a).
Proof.
  intros R N. revert p r. induction n as [|n IH]; intros p r H.
  - now rewrite !Nat.add_0_r.
  - cbn [Nat.add poll_until_complete]. unfold bind.
    destruct (H O ltac:(lia)) as (P0 & T0). rewrite !Nat.add_0_r in P0, T0.
    rewrite is_complete_pending;
      cbn [self world polls reads log_file drains assigned]; auto.
    + cbn [negb]. rewrite IH.
      * now rewrite <- !Nat.add_succ_comm.
      * intros i L. rewrite !Nat.add_succ_comm. apply H. lia.
    + unfold observed. cbn [self world polls]. now rewrite N.
    + unfold overdue. cbn [self world reads]. now apply Qgt_bool_false.
Qed.





(** ** An exit found after the deadline *)

(** X13: the exit of the child is looked for before the deadline.  A
    check that finds the child exited leaves the status completed with
    the exit code of the child, however long ago the deadline passed: the
    child is not sent the kill signal, and the clock is read once only,
    for the end time. *)
Theorem exit_wins_over_deadline (os : OS) (st : St) (n : Z) :
  status (self st) = _S_RUN ->
  observed os st = Some n ->
  status (self (snd (is_complete os st))) = _S_COMPLETE
  /\ code (self (snd (is_complete os st))) = Some n
  /\ signalled (_process (self (snd (is_complete os st))))
     = signalled (_process (self st))
  /\ returncode (_process (self (snd (is_complete os st)))) = Some n
  /\ reads (world (snd (is_complete os st))) = S (reads (world st))
  /\ e_time (self (snd (is_complete os st)))
     = Some (os_time os (reads (world st))).
Proof.
  intros R O. exec_call is_complete os st; repeat split; reflexivity.
Qed.

Lemma exit_wins_over_deadline_witness :
  overdue (os_exits 5) (sleeping 0%Q) = true
  /\ status (self (snd (is_complete (os_exits 5) (sleeping 0%Q)))) = _S_COMPLETE
  /\ code (self (snd (is_complete (os_exits 5) (sleeping 0%Q)))) = Some 5
  /\ signalled (_process (self (snd (is_complete (os_exits 5) (sleeping 0%Q)))))
     = false.
Proof.
  pose proof (exit_wins_over_deadline (os_exits 5) (sleeping 0%Q) 5
                eq_refl eq_refl) as (S & C & K & _).
  split; [vm_compute; reflexivity|]. split; [exact S|]. split; [exact C|].
  exact K.
Defined.

(** ** A payload on stdin and a piped stream *)

Lemma first_drain_after_payload (os : OS) (k : Kwargs) (w : World) :
  is_payload (k_stdin k) = true ->
  piped (k_stdout k) || piped (k_stderr k) = true ->
  first_drain os k w = Raises (ValueError "I/O operation on closed file.").
Proof.
  intros P S. unfold first_drain. rewrite P.
  apply drain_after_payload; [|exact S].
  cbn. unfold stdin_arg. rewrite P. reflexivity.
Qed.

(** X14: when the instance is built with a payload for stdin and with
    stdout or stderr opened with [PIPE], no check that finds the child
    exited returns: [communicate()] raises [ValueError] on the stdin pipe
    that the constructor closed.  So [run], once the spawn has succeeded
    and the first [n] checks have found the child running with at most
    [m_time] elapsed, raises that error at the check that finds the child
    exited, and the log gains nothing. *)
Theorem run_raises_after_payload (os : OS) (k : Kwargs) (w : World) (n : nat)
        (c : Z) :
  spawn_failure os k = None ->
  is_payload (k_stdin k) = true ->
  piped (k_stdout k) || piped (k_stderr k) = true ->
  (forall i, (i < n)%nat ->
     os_poll os (polls w + i) = None /\ (elapsed os w i <= deadline k)%Q) ->
  os_poll os (polls w + n) = Some c ->
  forall fuel, (n < fuel)%nat ->
  exists w',
    run os fuel k w
    = Some (inl (Raised_Exc (ValueError "I/O operation on closed file.")), w')
    /\ log_file w' = log_file w.
Proof.
  intros F P Pp H E fuel L.
  pose proof (first_drain_after_payload os k w P Pp) as Dr.
  destruct (Bash_init_start os k w F)
    as (b0 & I & R & N & _ & S0 & M0 & A & Cl & St & Mp).
  unfold run. rewrite I.
  replace fuel with (n + S (fuel - S n))%nat by lia.
  rewrite poll_until_complete_pending; auto.
  2:{ intros i Li. rewrite S0, M0. apply (H i Li). }
  cbn [poll_until_complete]. unfold bind.
  set (st := mkSt b0 (mkWorld (polls w + n) (S (reads w) + n) (log_file w)
                              (drains w)) []).
  assert (O : observed os st = Some c)
    by (unfold observed; cbn [st self world polls]; now rewrite N).
  assert (C : drain os st = Raises (ValueError "I/O operation on closed file.")).
  { unfold drain. cbn [st self world drains]. rewrite A, Cl, St, Mp. exact Dr. }
  destruct (is_complete_exit_raises os st c _ R O C)
    as (T & _ & _ & _ & _ & _ & Lg & _).
  destruct (is_complete os st) as [r st']. cbn [fst snd] in *. subst r.
  exists (world st'). split; [reflexivity|]. exact Lg.
Qed.

Lemma run_raises_after_payload_witness :
  exists w',
    run (os_exits_at 2 0) 5 (with_stdin (PyStr "hello") piped_sleep) world0
    = Some (inl (Raised_Exc (ValueError "I/O operation on closed file.")), w')
    /\ log_file w' = log_file world0.
Proof.
  apply (run_raises_after_payload (os_exits_at 2 0)
           (with_stdin (PyStr "hello") piped_sleep) world0 2 0).
  - reflexivity.
  - reflexivity.
  - reflexivity.
  - intros i L. split.
    + destruct i as [|[|i]]; [reflexivity | reflexivity | lia].
    + apply Qle_bool_iff.
      destruct i as [|[|i]]; [vm_compute; reflexivity | vm_compute; reflexivity | lia].
  - reflexivity.
  - lia.
Defined.
